(** * The Weave logging integration of litellm

    A shallow embedding of [litellm/integrations/weave.py] and of the pydantic
    models of [litellm/types/integrations/weave.py], with the properties of
    the sanitisation pipeline [_prepare_data], of the credential resolution
    and of the payload builders.

    The embedding comes in two layers.  [Weave] is the value-level reading of
    the code: Python values are a tree type and dictionaries are association
    lists in insertion order.  [Store] is the object-level reading: values
    are references into a store of mutable objects, and [pop] and item
    assignment update the store.  [Store] is what the frame property is
    proved on, and a simulation theorem relates the two layers. *)

From Stdlib Require Import String Ascii ZArith List Bool Lia Btauto.
From stdpp Require Import base option list.
Import ListNotations.
Set Warnings "-register-all".
Local Open Scope string_scope.
Local Open Scope list_scope.

(** ** Python values, exceptions and dictionaries *)

Module Py.

(** The values a logging payload is made of.  A float is carried as its
    IEEE-754 binary64 bit pattern: the code never computes with one. *)
Inductive pyval : Type :=
| VNone
| VBool (b : bool)
| VInt (z : Z)
| VFloat (bits : Z)
| VStr (s : string)
| VList (l : list pyval)
| VDict (d : list (string * pyval)).

(** A [dict] with string keys, in insertion order. *)
Abbreviation dict := (list (string * pyval)).

(** The exceptions that the modelled code can raise. *)
Inductive exn : Type :=
| AttributeError (attr : string)
| TypeError
| KeyError (key : string)
| ValidationError (model : string)
| Exception (msg : string).

Definition exn_class (e : exn) : string :=
  match e with
  | AttributeError _ => "AttributeError"
  | TypeError => "TypeError"
  | KeyError _ => "KeyError"
  | ValidationError _ => "ValidationError"
  | Exception _ => "Exception"
  end.

Inductive result (A : Type) : Type :=
| Ok (a : A)
| Raise (e : exn).
Arguments Ok {A} a.
Arguments Raise {A} e.

#[global] Instance result_ret : MRet result := @Ok.
#[global] Instance result_bind : MBind result := λ A B f m,
  match m with
  | Ok a => f a
  | Raise e => Raise e
  end.

Definition is_ok {A} (r : result A) : bool :=
  match r with Ok _ => true | Raise _ => false end.

(** [sub in s] on strings. *)
Fixpoint contains (sub s : string) : bool :=
  String.prefix sub s ||
  match s with
  | EmptyString => false
  | String _ s' => contains sub s'
  end.

(** [v is None], [bool(v)] and [len(v)]. *)
Definition is_none (v : pyval) : bool :=
  match v with VNone => true | _ => false end.

Definition truthy (v : pyval) : bool :=
  match v with
  | VNone => false
  | VBool b => b
  | VInt z => negb (z =? 0)%Z
  | VFloat bits => negb (Z.land bits (2 ^ 63 - 1) =? 0)%Z
  | VStr s => negb (s =? "")
  | VList l => negb (Nat.eqb (length l) 0)
  | VDict d => negb (Nat.eqb (length d) 0)
  end.

(** [len] counts the bytes of a string where Python counts code points; the
    code only compares the length with zero, where the two agree. *)
Definition py_len (v : pyval) : result nat :=
  match v with
  | VStr s => Ok (String.length s)
  | VList l => Ok (length l)
  | VDict d => Ok (length d)
  | _ => Raise TypeError
  end.

(** [v.items()]: only a dict has the attribute. *)
Definition dict_items (v : pyval) : result dict :=
  match v with
  | VDict d => Ok d
  | _ => Raise (AttributeError "items")
  end.

Section Dict.
Context {V : Type}.
Implicit Type d : list (string * V).

Definition key_is (k : string) (kv : string * V) : bool := fst kv =? k.

(** [d.get(k)] as an option, and [d.get(k, dflt)]. *)
Definition dict_get (k : string) d : option V :=
  snd <$> List.find (key_is k) d.

Definition dict_get_default (k : string) d (dflt : V) : V :=
  default dflt (dict_get k d).

(** [k in d]. *)
Definition dict_mem (k : string) d : bool :=
  match dict_get k d with Some _ => true | None => false end.

(** [del d[k]] when present. *)
Definition dict_remove (k : string) d : list (string * V) :=
  List.filter (λ kv, negb (key_is k kv)) d.

(** [d.pop(k, dflt)]: the value and the dict that is left. *)
Definition dict_pop (k : string) d (dflt : V) : V * list (string * V) :=
  (dict_get_default k d dflt, dict_remove k d).

(** [d[k] = v]: a present key keeps its place, a new one goes last. *)
Fixpoint dict_set (k : string) (v : V) d : list (string * V) :=
  match d with
  | [] => [(k, v)]
  | kv :: d' => if key_is k kv then (k, v) :: d' else kv :: dict_set k v d'
  end.

(** [{k: v for k, v in d.items() if p(k, v)}]. *)
Definition dict_comp (p : string → V → bool) d : list (string * V) :=
  List.filter (λ kv, p (fst kv) (snd kv)) d.

(** The keys of a Python dict are pairwise distinct. *)
Definition dict_wf d : Prop := NoDup (fst <$> d).
End Dict.

(** [d[k]]. *)
Definition dict_getitem (k : string) (d : dict) : result pyval :=
  match dict_get k d with
  | Some v => Ok v
  | None => Raise (KeyError k)
  end.

(** [a or b] on optional strings. *)
Definition or_str (a b : option string) : option string :=
  match a with
  | Some s => if s =? "" then b else Some s
  | None => b
  end.

End Py.
Import Py.

(** ** The integration, on values *)

Module Weave.

(** *** The pydantic models of [litellm/types/integrations/weave.py]

    A model checks its fields when it is built, as pydantic 2 does: a field
    annotated [str] takes a string, and one annotated [Dict[str, T]] a dict
    whose values pass as [T].  [None] passes for neither, as no field is
    [Optional].  A validated value equals the one passed in. *)

Record WeaveCredentials : Type := {
  wandb_api_key : string;
  wandb_entity : string;
  weave_project : string;
}.

Record WeaveLogData : Type := {
  standard_logging_data : dict;
  call_type : string;
  error_str : string;
  error_information : list (string * string);
  response : dict;
}.

Definition as_str (v : pyval) : option string :=
  match v with VStr s => Some s | _ => None end.

Definition as_dict (v : pyval) : option dict :=
  match v with VDict d => Some d | _ => None end.

Definition as_dict_str (v : pyval) : option (list (string * string)) :=
  d ← as_dict v; mapM (λ kv, pair (fst kv) <$> as_str (snd kv)) d.

(** [WeaveCredentials(wandb_api_key=k, wandb_entity=e, weave_project=p)];
    the arguments are strings or [None]. *)
Definition new_WeaveCredentials (k e p : option string)
  : result WeaveCredentials :=
  match k, e, p with
  | Some k, Some e, Some p =>
      Ok {| wandb_api_key := k; wandb_entity := e; weave_project := p |}
  | _, _, _ => Raise (ValidationError "WeaveCredentials")
  end.

(** [WeaveLogData(standard_logging_data=d, call_type=ct, error_str=es,
    error_information=ei, response=r)]. *)
Definition new_WeaveLogData (d ct es ei r : pyval) : result WeaveLogData :=
  match as_dict d, as_str ct, as_str es, as_dict_str ei, as_dict r with
  | Some d, Some ct, Some es, Some ei, Some r =>
      Ok {| standard_logging_data := d; call_type := ct; error_str := es;
            error_information := ei; response := r |}
  | _, _, _, _, _ => Raise (ValidationError "WeaveLogData")
  end.

(** *** [_prepare_data] and its local functions *)

Definition _remove_keys_with_tokens (data : pyval) : result dict :=
  items ← dict_items data;
  Ok (dict_comp (λ k _, negb (contains "token" k)) items).

Definition timing_keys : list string :=
  ["startTime"; "endTime"; "completionStartTime"; "response_time"].

Definition _remove_timing_keys (data : pyval) : result dict :=
  items ← dict_items data;
  Ok (dict_comp (λ k _, negb (existsb (String.eqb k) timing_keys)) items).

Definition _redact_and_clean_metadata (metadata : pyval) : result dict :=
  if negb (truthy metadata) then Ok []
  else
    items ← dict_items metadata;
    let redacted_metadata :=
      dict_comp (λ k _, negb (contains "_api_" k)) items in
    let cleaned_metadata :=
      dict_comp (λ _ v, negb (is_none v)) redacted_metadata in
    n ← py_len (dict_get_default "applied_guardrails" cleaned_metadata
                  (VList []));
    Ok (if Nat.eqb n 0
        then snd (dict_pop "applied_guardrails" cleaned_metadata VNone)
        else cleaned_metadata).

Definition _clean_model_map_information (model_map_info : pyval)
  : result dict :=
  if negb (truthy model_map_info) then Ok []
  else
    items ← dict_items model_map_info;
    let cleaned_model_map_info := dict_comp (λ _ v, negb (is_none v)) items in
    if dict_mem "model_map_value" cleaned_model_map_info then
      value ← dict_getitem "model_map_value" cleaned_model_map_info;
      items ← dict_items value;
      let cleaned_model_map_info :=
        dict_set "model_map_value"
          (VDict (dict_comp (λ _ v, negb (is_none v)) items))
          cleaned_model_map_info in
      value ← dict_getitem "model_map_value" cleaned_model_map_info;
      items ← dict_items value;
      Ok (dict_set "model_map_value"
            (VDict (dict_comp (λ k _, negb (contains "support" k)) items))
            cleaned_model_map_info)
    else Ok cleaned_model_map_info.

(** The five values that [_prepare_data] hands to [WeaveLogData]. *)
Record fields : Type := {
  f_standard_logging_data : dict;
  f_call_type : pyval;
  f_error_str : pyval;
  f_error_information : pyval;
  f_response : pyval;
}.

(** The body of [_prepare_data] down to its [return]. *)
Definition prepare_fields (kwargs : dict) : result fields :=
  let standard_logging_data :=
    dict_get_default "standard_logging_data" kwargs VNone in
  standard_logging_data ← _remove_keys_with_tokens standard_logging_data;
  let call_type := dict_get_default "call_type" standard_logging_data VNone in
  let standard_logging_data :=
    snd (dict_pop "stream" standard_logging_data VNone) in
  standard_logging_data ← _remove_timing_keys (VDict standard_logging_data);
  let '(metadata, standard_logging_data) :=
    dict_pop "metadata" standard_logging_data VNone in
  metadata ← _redact_and_clean_metadata metadata;
  let standard_logging_data :=
    dict_set "metadata" (VDict metadata) standard_logging_data in
  let standard_logging_data :=
    snd (dict_pop "hidden_params" standard_logging_data VNone) in
  let '(model_map_information, standard_logging_data) :=
    dict_pop "model_map_information" standard_logging_data VNone in
  model_map_information ← _clean_model_map_information model_map_information;
  let standard_logging_data :=
    dict_set "model_map_information" (VDict model_map_information)
      standard_logging_data in
  let '(error_str, standard_logging_data) :=
    dict_pop "error_str" standard_logging_data VNone in
  let '(error_information, standard_logging_data) :=
    dict_pop "error_information" standard_logging_data VNone in
  let standard_logging_data :=
    snd (dict_pop "response_cost_failure_debug_info" standard_logging_data
           VNone) in
  let standard_logging_data :=
    snd (dict_pop "guardrail_information" standard_logging_data VNone) in
  let llm_response := dict_get_default "response" standard_logging_data VNone in
  Ok {| f_standard_logging_data := standard_logging_data;
        f_call_type := call_type;
        f_error_str := error_str;
        f_error_information := error_information;
        f_response := llm_response |}.

Definition _prepare_data (kwargs : dict) : result WeaveLogData :=
  f ← prepare_fields kwargs;
  new_WeaveLogData (VDict (f_standard_logging_data f)) (f_call_type f)
    (f_error_str f) (f_error_information f) (f_response f).

(** Feeding a record back to [_prepare_data]: the function reads its input
    under the key [standard_logging_data] only. *)
Definition as_kwargs (d : dict) : dict := [("standard_logging_data", VDict d)].

(** *** The payload builders *)

(** The dict bound to [payload] in [_prepare_call_start_payload]. *)
Definition start_payload (credentials : WeaveCredentials)
    (log_data : WeaveLogData) (start_time_str : string) : pyval :=
  VDict
    [("start", VDict
       [("project_id",
          VStr (if truthy (VStr (wandb_entity credentials))
                then wandb_entity credentials ++ "/" ++
                     weave_project credentials
                else weave_project credentials));
        ("op_name", VStr ("litellm." ++ call_type log_data));
        ("display_name", VStr ("litellm." ++ call_type log_data));
        ("started_at", VStr start_time_str);
        ("attributes", VDict []);
        ("inputs", VDict (standard_logging_data log_data))])].

(** The body is [pass]: the call returns [None]. *)
Definition _prepare_call_end_payload (log_data : WeaveLogData)
    (end_time_str : string) : pyval := VNone.

(** The names that the class body of [WeaveLogger] binds, and the
    attributes that its [__init__] sets. *)
Definition WeaveLogger_defines : list string :=
  ["__init__"; "_get_credentials_from_env"; "_prepare_data";
   "_prepare_call_start_payload"; "_prepare_call_end_payload";
   "log_success_event"; "log_failure_event"; "credentials"; "headers"].

Record WeaveLogger : Type := {
  credentials : WeaveCredentials;
  headers : list (string * string);
}.

Section Environment.
(** What the module takes from outside: the process environment, the
    serialiser [json.dumps], [datetime.isoformat], and the base class
    [CustomLogger] (its constructor and the attributes it provides). *)
Variable getenv : string → option string.
Variable json_dumps : pyval → string.
Variable datetime : Type.
Variable isoformat : datetime → string.
Variable CustomLogger_init : dict → result unit.
Variable CustomLogger_method :
  string → option (WeaveLogData → string → result unit).

Definition _get_credentials_from_env
    (wandb_api_key wandb_entity weave_project : option string)
  : result WeaveCredentials :=
  let _credentials_api_key := or_str wandb_api_key (getenv "WANDB_API_KEY") in
  match _credentials_api_key with
  | None =>
      Raise (Exception
        "W&B API Key is not set. Visit https://wandb.ai/authorize to get one.")
  | Some _ =>
      let _credentials_entity :=
        or_str wandb_entity (getenv "WANDB_ENTITY") in
      let _credentials_project :=
        or_str weave_project (getenv "WANDB_PROJECT") in
      match _credentials_project with
      | None =>
          Raise (Exception
            "Please provide a project name using the `weave_project` parameter or the `WANDB_PROJECT` environment variable.")
      | Some _ =>
          new_WeaveCredentials _credentials_api_key _credentials_entity
            _credentials_project
      end
  end.

(** [WeaveLogger(wandb_api_key, wandb_entity, weave_project,
    weave_base_url, **kwargs)]. *)
Definition WeaveLogger_init
    (wandb_api_key wandb_entity weave_project : option string)
    (weave_base_url : string) (kwargs : dict) : result WeaveLogger :=
  credentials ← _get_credentials_from_env wandb_api_key wandb_entity
                  weave_project;
  let headers := [("Content-Type", "application/json");
                  ("Accept", "application/json")] in
  _ ← CustomLogger_init kwargs;
  Ok {| credentials := credentials; headers := headers |}.

Definition _prepare_call_start_payload (self : WeaveLogger)
    (log_data : WeaveLogData) (start_time_str : string) : string :=
  json_dumps (start_payload (credentials self) log_data start_time_str).

(** [self.name] for a name outside [WeaveLogger_defines]: the lookup falls
    through to the base class. *)
Definition inherited (name : string)
  : result (WeaveLogData → string → result unit) :=
  match CustomLogger_method name with
  | Some m => Ok m
  | None => Raise (AttributeError name)
  end.

Definition log_success_event (self : WeaveLogger) (kwargs : dict)
    (response_obj : pyval) (start_time end_time : datetime) : result unit :=
  log_data ← _prepare_data kwargs;
  let start_time_str := isoformat start_time in
  let end_time_str := isoformat end_time in
  _log_call_start ← inherited "_log_call_start";
  _ ← _log_call_start log_data start_time_str;
  _log_call_end ← inherited "_log_call_end";
  _log_call_end log_data end_time_str.

Definition log_failure_event (self : WeaveLogger) (kwargs : dict)
    (response_obj : pyval) (start_time end_time : datetime) : result unit :=
  log_data ← _prepare_data kwargs;
  let start_time_str := isoformat start_time in
  let end_time_str := isoformat end_time in
  _log_call_start ← inherited "_log_call_start";
  _ ← _log_call_start log_data start_time_str;
  _log_call_end ← inherited "_log_call_end";
  _log_call_end log_data end_time_str.
End Environment.

(** The scenario of the specification, and an input on which
    [_prepare_data] returns a record. *)
Definition scenario : dict :=
  [("standard_logging_data", VDict
     [("call_type", VStr "completion");
      ("stream", VBool true);
      ("token_usage", VInt 42);
      ("metadata", VDict
         [("user_api_key", VStr "sk-1");
          ("note", VStr "hi");
          ("applied_guardrails", VList [])]);
      ("model_map_information", VDict
         [("model_map_value", VDict
            [("max_tokens", VInt 100);
             ("supports_vision", VBool true)])])])].

Definition failed_call : dict :=
  [("standard_logging_data", VDict
     [("call_type", VStr "completion");
      ("stream", VBool false);
      ("startTime", VFloat 0);
      ("total_tokens", VInt 7);
      ("metadata", VDict
         [("user_api_key_hash", VStr "abc");
          ("requester_ip_address", VNone);
          ("applied_guardrails", VList [])]);
      ("hidden_params", VDict [("model_id", VNone)]);
      ("model_map_information", VDict
         [("model_map_key", VStr "gpt-4o");
          ("model_map_value", VDict
            [("max_input_tokens", VInt 128000);
             ("supports_vision", VBool true);
             ("mode", VNone)])]);
      ("error_str", VStr "rate limited");
      ("error_information", VDict [("error_code", VStr "429")]);
      ("response", VDict [("id", VStr "r1")])])].

End Weave.

(** ** The integration, on a store of objects

    The same code read with Python's object model: a dict or a list is an
    object in a store and a variable holds a reference to it, so that two
    variables can name one object.  Numbers, strings and [None] cannot be
    updated and are kept in the reference itself. *)

Module Store.

Abbreviation loc := nat.

Inductive ref : Type :=
| RNone
| RBool (b : bool)
| RInt (z : Z)
| RFloat (bits : Z)
| RStr (s : string)
| RObj (l : loc).

Inductive obj : Type :=
| OList (items : list ref)
| ODict (items : list (string * ref)).

Abbreviation store := (list obj).

(** A computation runs on a store and ends with a value or an exception and
    the store it leaves.  It has no outcome ([None]) when it follows a
    reference that the store does not hold, or calls a dict method through
    a variable that holds no dict: neither happens in a Python run. *)
Definition M (A : Type) : Type := store → option (result A * store).

#[global] Instance M_ret : MRet M := λ A a σ, Some (Ok a, σ).
#[global] Instance M_bind : MBind M := λ A B f m σ,
  match m σ with
  | Some (Ok a, σ') => f a σ'
  | Some (Raise e, σ') => Some (Raise e, σ')
  | None => None
  end.

Definition raise {A} (e : exn) : M A := λ σ, Some (Raise e, σ).
Definition stuck {A} : M A := λ _, None.

Definition alloc (o : obj) : M loc := λ σ, Some (Ok (length σ), σ ++ [o]).

Definition load (l : loc) : M obj := λ σ,
  match σ !! l with
  | Some o => Some (Ok o, σ)
  | None => None
  end.

Definition load_dict (l : loc) : M (list (string * ref)) :=
  o ← load l;
  match o with
  | ODict d => mret d
  | OList _ => stuck
  end.

Definition store_dict (l : loc) (d : list (string * ref)) : M unit := λ σ,
  if bool_decide (l < length σ) then Some (Ok tt, <[l := ODict d]> σ)
  else None.

(** [r is None], [bool(r)], [len(r)] and [r.items()]. *)
Definition is_none (r : ref) : bool :=
  match r with RNone => true | _ => false end.

Definition truthy (r : ref) : M bool :=
  match r with
  | RObj l =>
      o ← load l;
      mret (match o with
            | OList rs => negb (Nat.eqb (length rs) 0)
            | ODict d => negb (Nat.eqb (length d) 0)
            end)
  | RNone => mret false
  | RBool b => mret b
  | RInt z => mret (negb (z =? 0)%Z)
  | RFloat bits => mret (negb (Z.land bits (2 ^ 63 - 1) =? 0)%Z)
  | RStr s => mret (negb (s =? ""))
  end.

Definition py_len (r : ref) : M nat :=
  match r with
  | RObj l =>
      o ← load l;
      mret (match o with
            | OList rs => length rs
            | ODict d => length d
            end)
  | RStr s => mret (String.length s)
  | _ => raise TypeError
  end.

Definition dict_items (r : ref) : M (list (string * ref)) :=
  match r with
  | RObj l =>
      o ← load l;
      match o with
      | ODict d => mret d
      | OList _ => raise (AttributeError "items")
      end
  | _ => raise (AttributeError "items")
  end.

(** The methods of the dict at [l]: [get], [pop], [l[k] = v], [l[k]] and
    [k in l]. *)
Definition get (l : loc) (k : string) (dflt : ref) : M ref :=
  d ← load_dict l; mret (dict_get_default k d dflt).

Definition pop (l : loc) (k : string) (dflt : ref) : M ref :=
  d ← load_dict l;
  _ ← store_dict l (dict_remove k d);
  mret (dict_get_default k d dflt).

Definition setitem (l : loc) (k : string) (v : ref) : M unit :=
  d ← load_dict l; store_dict l (dict_set k v d).

Definition getitem (l : loc) (k : string) : M ref :=
  d ← load_dict l;
  match dict_get k d with
  | Some v => mret v
  | None => raise (KeyError k)
  end.

Definition mem (l : loc) (k : string) : M bool :=
  d ← load_dict l; mret (dict_mem k d).

(** A dict display or comprehension makes a new object. *)
Definition new_dict (d : list (string * ref)) : M loc := alloc (ODict d).

(** *** The model [WeaveLogData]

    Its dict fields hold the validated copies that pydantic makes. *)
Record WeaveLogData : Type := {
  standard_logging_data : loc;
  call_type : string;
  error_str : string;
  error_information : loc;
  response : loc;
}.

Definition as_str (r : ref) : option string :=
  match r with RStr s => Some s | _ => None end.

Definition as_dict (r : ref) : M (option (list (string * ref))) :=
  match r with
  | RObj l =>
      o ← load l;
      mret (match o with ODict d => Some d | OList _ => None end)
  | _ => mret None
  end.

Definition all_str (d : list (string * ref)) : bool :=
  forallb (λ kv, match as_str (snd kv) with Some _ => true | None => false end)
    d.

Definition new_WeaveLogData (d ct es ei r : ref) : M WeaveLogData :=
  d ← as_dict d;
  ei ← as_dict ei;
  r ← as_dict r;
  match d, as_str ct, as_str es, ei, r with
  | Some d, Some ct, Some es, Some ei, Some r =>
      if all_str ei then
        d ← new_dict d;
        ei ← new_dict ei;
        r ← new_dict r;
        mret {| standard_logging_data := d; call_type := ct; error_str := es;
                error_information := ei; response := r |}
      else raise (ValidationError "WeaveLogData")
  | _, _, _, _, _ => raise (ValidationError "WeaveLogData")
  end.

(** *** [_prepare_data] and its local functions *)

Definition _remove_keys_with_tokens (data : ref) : M loc :=
  items ← dict_items data;
  new_dict (dict_comp (λ k _, negb (contains "token" k)) items).

Definition _remove_timing_keys (data : ref) : M loc :=
  items ← dict_items data;
  new_dict
    (dict_comp (λ k _, negb (existsb (String.eqb k) Weave.timing_keys)) items).

Definition _redact_and_clean_metadata (metadata : ref) : M loc :=
  b ← truthy metadata;
  if negb b then new_dict []
  else
    items ← dict_items metadata;
    redacted_metadata ←
      new_dict (dict_comp (λ k _, negb (contains "_api_" k)) items);
    items ← dict_items (RObj redacted_metadata);
    cleaned_metadata ← new_dict (dict_comp (λ _ v, negb (is_none v)) items);
    empty ← alloc (OList []);
    guardrails ← get cleaned_metadata "applied_guardrails" (RObj empty);
    n ← py_len guardrails;
    _ ← (if Nat.eqb n 0
         then _ ← pop cleaned_metadata "applied_guardrails" RNone; mret tt
         else mret tt);
    mret cleaned_metadata.

Definition _clean_model_map_information (model_map_info : ref) : M loc :=
  b ← truthy model_map_info;
  if negb b then new_dict []
  else
    items ← dict_items model_map_info;
    cleaned_model_map_info ←
      new_dict (dict_comp (λ _ v, negb (is_none v)) items);
    present ← mem cleaned_model_map_info "model_map_value";
    _ ← (if present : bool then
           value ← getitem cleaned_model_map_info "model_map_value";
           items ← dict_items value;
           value ← new_dict (dict_comp (λ _ v, negb (is_none v)) items);
           _ ← setitem cleaned_model_map_info "model_map_value" (RObj value);
           value ← getitem cleaned_model_map_info "model_map_value";
           items ← dict_items value;
           value ←
             new_dict (dict_comp (λ k _, negb (contains "support" k)) items);
           setitem cleaned_model_map_info "model_map_value" (RObj value)
         else mret tt);
    mret cleaned_model_map_info.

Definition _prepare_data (kwargs : loc) : M WeaveLogData :=
  standard_logging_data ← get kwargs "standard_logging_data" RNone;
  standard_logging_data ← _remove_keys_with_tokens standard_logging_data;
  call_type ← get standard_logging_data "call_type" RNone;
  _ ← pop standard_logging_data "stream" RNone;
  standard_logging_data ← _remove_timing_keys (RObj standard_logging_data);
  metadata ← pop standard_logging_data "metadata" RNone;
  metadata ← _redact_and_clean_metadata metadata;
  _ ← setitem standard_logging_data "metadata" (RObj metadata);
  _ ← pop standard_logging_data "hidden_params" RNone;
  model_map_information ←
    pop standard_logging_data "model_map_information" RNone;
  model_map_information ← _clean_model_map_information model_map_information;
  _ ← setitem standard_logging_data "model_map_information"
        (RObj model_map_information);
  error_str ← pop standard_logging_data "error_str" RNone;
  error_information ← pop standard_logging_data "error_information" RNone;
  _ ← pop standard_logging_data "response_cost_failure_debug_info" RNone;
  _ ← pop standard_logging_data "guardrail_information" RNone;
  llm_response ← get standard_logging_data "response" RNone;
  new_WeaveLogData (RObj standard_logging_data) call_type error_str
    error_information llm_response.

(** *** Reading a value off the store

    [reify n σ r] is the value that [r] denotes in [σ], followed through at
    most [n] nested objects; a dangling or cyclic reference denotes none. *)
Fixpoint reify (n : nat) (σ : store) (r : ref) : option pyval :=
  match r with
  | RNone => Some VNone
  | RBool b => Some (VBool b)
  | RInt z => Some (VInt z)
  | RFloat bits => Some (VFloat bits)
  | RStr s => Some (VStr s)
  | RObj l =>
      match n with
      | O => None
      | S n =>
          match σ !! l with
          | Some (OList rs) => VList <$> mapM (reify n σ) rs
          | Some (ODict d) =>
              VDict <$> mapM (λ kv, pair (fst kv) <$> reify n σ (snd kv)) d
          | None => None
          end
      end
  end.

Definition reify_dict (n : nat) (σ : store) (l : loc) : option dict :=
  reify n σ (RObj l) ≫= Weave.as_dict.

Definition reify_log_data (n : nat) (σ : store) (x : WeaveLogData)
  : option Weave.WeaveLogData :=
  d ← reify_dict n σ (standard_logging_data x);
  ei ← reify n σ (RObj (error_information x)) ≫= Weave.as_dict_str;
  r ← reify_dict n σ (response x);
  Some {| Weave.standard_logging_data := d;
          Weave.call_type := call_type x;
          Weave.error_str := error_str x;
          Weave.error_information := ei;
          Weave.response := r |}.

(** The scenario of the specification as objects: the caller's dict at
    location 5, its parts below. *)
Definition scenario : store :=
  [ODict [("user_api_key", RStr "sk-1"); ("note", RStr "hi");
          ("applied_guardrails", RObj 1)];
   OList [];
   ODict [("max_tokens", RInt 100); ("supports_vision", RBool true)];
   ODict [("model_map_value", RObj 2)];
   ODict [("call_type", RStr "completion"); ("stream", RBool true);
          ("token_usage", RInt 42); ("metadata", RObj 0);
          ("model_map_information", RObj 3);
          ("error_str", RStr "boom");
          ("error_information", RObj 6);
          ("response", RObj 7)];
   ODict [("standard_logging_data", RObj 4)];
   ODict [("error_code", RStr "500")];
   ODict [("id", RStr "r1")]].

(** The mapping that location 5 denotes in [scenario]. *)
Definition scenario_value : dict :=
  [("standard_logging_data", VDict
     [("call_type", VStr "completion");
      ("stream", VBool true);
      ("token_usage", VInt 42);
      ("metadata", VDict
         [("user_api_key", VStr "sk-1");
          ("note", VStr "hi");
          ("applied_guardrails", VList [])]);
      ("model_map_information", VDict
         [("model_map_value", VDict
            [("max_tokens", VInt 100);
             ("supports_vision", VBool true)])]);
      ("error_str", VStr "boom");
      ("error_information", VDict [("error_code", VStr "500")]);
      ("response", VDict [("id", VStr "r1")])])].

End Store.


(** ** Vocabulary of the statements *)

(** The entries of [d] whose key passes [q]. *)
Definition filter_keys {V} (q : string → bool) (d : list (string * V))
  : list (string * V) :=
  List.filter (λ kv, q (fst kv)) d.

(** The keys that [_prepare_data] takes out of [standard_logging_data] by
    name, in the order in which it does. *)
Definition dropped_keys : list string :=
  ["stream"; "startTime"; "endTime"; "completionStartTime"; "response_time";
   "metadata"; "hidden_params"; "model_map_information"; "error_str";
   "error_information"; "response_cost_failure_debug_info";
   "guardrail_information"].

Definition kept (k : string) : bool :=
  negb (contains "token" k) && negb (existsb (String.eqb k) dropped_keys).

(** The parts of the two cleaning functions. *)
Definition clean_entries (m : dict) : dict :=
  dict_comp (λ _ v, negb (is_none v))
    (dict_comp (λ k _, negb (contains "_api_" k)) m).

Definition non_null (m : dict) : dict := dict_comp (λ _ v, negb (is_none v)) m.

Definition clean_value (sub : dict) : dict :=
  dict_comp (λ k _, negb (contains "support" k)) (non_null sub).

(** Inputs and records for the worked cases. *)
Definition success_call : dict :=
  [("standard_logging_data", VDict
     [("call_type", VStr "completion");
      ("response", VDict [("id", VStr "r1")])])].

Definition no_response_call : dict :=
  [("standard_logging_data", VDict
     [("call_type", VStr "completion");
      ("error_str", VStr "rate limited");
      ("error_information", VDict [("error_code", VStr "429")])])].

Definition failed_call_record : Weave.WeaveLogData :=
  {| Weave.standard_logging_data :=
       [("call_type", VStr "completion");
        ("response", VDict [("id", VStr "r1")]);
        ("metadata", VDict []);
        ("model_map_information", VDict
           [("model_map_key", VStr "gpt-4o");
            ("model_map_value", VDict [("max_input_tokens", VInt 128000)])])];
     Weave.call_type := "completion";
     Weave.error_str := "rate limited";
     Weave.error_information := [("error_code", "429")];
     Weave.response := [("id", VStr "r1")] |}.

Definition some_credentials : Weave.WeaveCredentials :=
  {| Weave.wandb_api_key := "key"; Weave.wandb_entity := "team";
     Weave.weave_project := "proj" |}.

Definition some_logger : Weave.WeaveLogger :=
  {| Weave.credentials := some_credentials;
     Weave.headers := [("Content-Type", "application/json");
                       ("Accept", "application/json")] |}.

(** Stores: [extends σ σ'] when every object of [σ] is in [σ'], at its
    place and unchanged; [extends_off l0 σ σ'] when this holds of every
    place but [l0], and [extends_from b σ σ'] of every place from [b] on. *)
Definition extends (σ σ' : Store.store) : Prop :=
  ∀ l o, σ !! l = Some o → σ' !! l = Some o.

Definition extends_off (l0 : Store.loc) (σ σ' : Store.store) : Prop :=
  ∀ l o, l ≠ l0 → σ !! l = Some o → σ' !! l = Some o.

Definition extends_from (b : nat) (σ σ' : Store.store) : Prop :=
  ∀ l o, b ≤ l → σ !! l = Some o → σ' !! l = Some o.

(** [m] run on [σ] has an outcome, which satisfies [Q]. *)
Definition wp {A} (m : Store.M A) (σ : Store.store)
    (Q : result A → Store.store → Prop) : Prop :=
  ∃ r σ', m σ = Some (r, σ') ∧ Q r σ'.

(** Every outcome of [m] run on [σ], if it has one, satisfies [Q]. *)
Definition pc {A} (m : Store.M A) (σ : Store.store)
    (Q : result A → Store.store → Prop) : Prop :=
  ∀ r σ', m σ = Some (r, σ') → Q r σ'.

(** [m] leaves every store as it is. *)
Definition read_only {A} (m : Store.M A) : Prop :=
  ∀ σ r σ', m σ = Some (r, σ') → σ' = σ.

(** A store whose metadata dict, at location 0, holds itself. *)
Definition cyclic_store : Store.store :=
  [Store.ODict [("self", Store.RObj 0); ("note", Store.RStr "hi");
                ("user_api_key", Store.RStr "sk-1")];
   Store.ODict [("call_type", Store.RStr "completion");
                ("total_tokens", Store.RInt 7);
                ("metadata", Store.RObj 0);
                ("error_str", Store.RStr "boom");
                ("error_information", Store.RObj 3);
                ("response", Store.RObj 3)];
   Store.ODict [("standard_logging_data", Store.RObj 1)];
   Store.ODict []].

(** Two dicts with the same keys in the same order and related values. *)
Definition drel {V W} (R : V → W → Prop)
    (ds : list (string * V)) (d : list (string * W)) : Prop :=
  Forall2 (λ a b, fst a = fst b ∧ R (snd a) (snd b)) ds d.

(** The outcome of a run on the store against the outcome on values: the
    same exception, or a record that denotes the record of values. *)
Definition same_outcome (n : nat) (r : result Store.WeaveLogData)
    (σ : Store.store) (p : result Weave.WeaveLogData) : Prop :=
  match r, p with
  | Ok x, Ok rec => Store.reify_log_data n σ x = Some rec
  | Raise e, Raise e' => e = e'
  | _, _ => False
  end.

(** ** Strings and dictionaries *)

Lemma prefix_app (a s : string) :
  String.prefix a s = true ↔ ∃ b, s = (a ++ b)%string.
Proof.
  revert s. induction a as [|c a IH]; intros [|c' s]; simpl.
  - split; [by exists "" | done].
  - split; [by exists (String c' s) | done].
  - split; [done | intros [b Hb]; done].
  - destruct (Ascii.ascii_dec c c') as [->|Hne].
    + rewrite IH. split; intros [b Hb]; exists b; congruence.
    + split; [done | intros [b Hb]; congruence].
Qed.

(** [contains] is the substring test. *)
Lemma contains_spec (sub s : string) :
  contains sub s = true ↔ ∃ a b, s = (a ++ sub ++ b)%string.
Proof.
  induction s as [|c s IH]; cbn [contains].
  - rewrite orb_false_r, prefix_app. split.
    + intros [b Hb]. by exists "", b.
    + intros [a [b Hb]]. destruct a; [by exists b | done].
  - rewrite orb_true_iff, prefix_app, IH. split.
    + intros [[b Hb] | [a [b Hb]]].
      * by exists "", b.
      * exists (String c a), b. simpl. by rewrite Hb.
    + intros [a [b Hb]]. destruct a as [|c' a]; simpl in Hb.
      * left. by exists b.
      * right. exists a, b. congruence.
Qed.

Section DictFacts.
Context {V : Type}.
Implicit Type d : list (string * V).
Implicit Type q : string → bool.

Lemma dict_comp_keys q d : dict_comp (λ k _, q k) d = filter_keys q d.
Proof. done. Qed.

Lemma dict_remove_keys k d :
  dict_remove k d = filter_keys (λ k', negb (k' =? k)) d.
Proof. done. Qed.

Lemma filter_keys_app q d d' :
  filter_keys q (d ++ d') = filter_keys q d ++ filter_keys q d'.
Proof. apply List.filter_app. Qed.

Lemma filter_keys_ext q q' d :
  (∀ k, q k = q' k) → filter_keys q d = filter_keys q' d.
Proof. intros H. apply List.filter_ext. intros kv. apply H. Qed.

Lemma filter_keys_twice q q' d :
  filter_keys q' (filter_keys q d) = filter_keys (λ k, q k && q' k) d.
Proof.
  induction d as [|kv d IH]; simpl; [done|].
  destruct (q (fst kv)) eqn:Hq; simpl; rewrite ?Hq; simpl.
  - destruct (q' (fst kv)); by rewrite IH.
  - done.
Qed.

Lemma filter_keys_In q d k v :
  In (k, v) (filter_keys q d) ↔ In (k, v) d ∧ q k = true.
Proof. unfold filter_keys. by rewrite List.filter_In. Qed.

Lemma filter_id (f : string * V → bool) d :
  (∀ kv, In kv d → f kv = true) → List.filter f d = d.
Proof.
  induction d as [|kv d IH]; simpl; intros H; [done|].
  rewrite (H kv) by auto. f_equal. apply IH. auto.
Qed.

Lemma dict_get_cons k kv d :
  dict_get k (kv :: d) = if fst kv =? k then Some (snd kv) else dict_get k d.
Proof. unfold dict_get, key_is. simpl. by destruct (fst kv =? k). Qed.

Lemma dict_get_filter_keys q k d :
  dict_get k (filter_keys q d) = if q k then dict_get k d else None.
Proof.
  induction d as [|kv d IH]; simpl.
  - by destruct (q k).
  - rewrite dict_get_cons. destruct (q (fst kv)) eqn:Hq; simpl.
    + rewrite dict_get_cons, IH.
      destruct (String.eqb_spec (fst kv) k) as [<-|]; [by rewrite Hq | done].
    + rewrite IH.
      destruct (String.eqb_spec (fst kv) k) as [<-|]; [by rewrite Hq | done].
Qed.

Lemma dict_get_app k d d' :
  dict_get k (d ++ d') =
  match dict_get k d with Some v => Some v | None => dict_get k d' end.
Proof.
  induction d as [|kv d IH]; simpl; [done|].
  rewrite !dict_get_cons. by destruct (fst kv =? k).
Qed.

Lemma dict_get_In k v d : dict_get k d = Some v → In (k, v) d.
Proof.
  induction d as [|[k' v'] d IH]; [done|].
  rewrite dict_get_cons. simpl.
  destruct (String.eqb_spec k' k) as [->|]; [|by auto].
  intros [= ->]. by left.
Qed.

Lemma dict_get_None k d : dict_get k d = None ↔ ∀ v, ¬ In (k, v) d.
Proof.
  induction d as [|[k' v'] d IH]; [split; [by intros _ v [] | done]|].
  rewrite dict_get_cons. simpl.
  destruct (String.eqb_spec k' k) as [->|Hne].
  - split; [done | intros H; destruct (H v'); by left].
  - rewrite IH. split.
    + intros H v [[= -> ->] | Hin]; [done | by eapply H].
    + intros H v Hin. eapply H. by right.
Qed.

Lemma dict_set_absent k v d :
  dict_get k d = None → dict_set k v d = d ++ [(k, v)].
Proof.
  induction d as [|kv d IH]; simpl; [done|].
  rewrite dict_get_cons. unfold key_is.
  destruct (fst kv =? k); [done|]. intros H. by rewrite IH.
Qed.

Lemma dict_get_set k v d : dict_get k (dict_set k v d) = Some v.
Proof.
  induction d as [|kv d IH]; simpl.
  - rewrite dict_get_cons. simpl. by rewrite String.eqb_refl.
  - unfold key_is. destruct (fst kv =? k) eqn:Hk.
    + rewrite dict_get_cons. simpl. by rewrite String.eqb_refl.
    + by rewrite dict_get_cons, Hk.
Qed.

Lemma dict_set_set k v v' d :
  dict_set k v' (dict_set k v d) = dict_set k v' d.
Proof.
  induction d as [|kv d IH]; simpl; unfold key_is; simpl.
  - by rewrite String.eqb_refl.
  - destruct (fst kv =? k) eqn:Hk; simpl; unfold key_is; simpl.
    + by rewrite String.eqb_refl.
    + by rewrite Hk, IH.
Qed.

Lemma dict_set_In k v d k' v' :
  In (k', v') (dict_set k v d) → (k', v') = (k, v) ∨ In (k', v') d.
Proof.
  induction d as [|kv d IH]; simpl.
  - intros [?|[]]; auto.
  - destruct (key_is k kv); simpl; intros [?|?]; auto.
    destruct IH; auto.
Qed.

Lemma dict_mem_get k d : dict_mem k d = true ↔ is_Some (dict_get k d).
Proof.
  unfold dict_mem. destruct (dict_get k d); split; done.
Qed.
End DictFacts.

Section DictKeys.
Context {V : Type}.
Implicit Type d : list (string * V).
Implicit Type q : string → bool.

Lemma dict_get_default_kept q k d dflt :
  q k = true →
  dict_get_default k (filter_keys q d) dflt = dict_get_default k d dflt.
Proof.
  intros Hq. unfold dict_get_default. by rewrite dict_get_filter_keys, Hq.
Qed.

Lemma dict_get_default_dropped q k d dflt :
  q k = false → dict_get_default k (filter_keys q d) dflt = dflt.
Proof.
  intros Hq. unfold dict_get_default. by rewrite dict_get_filter_keys, Hq.
Qed.

Lemma dict_get_default_app k d d' dflt :
  dict_get_default k (d ++ d') dflt =
  dict_get_default k d (dict_get_default k d' dflt).
Proof.
  unfold dict_get_default. rewrite dict_get_app. by destruct (dict_get k d).
Qed.

Lemma dict_set_dropped q k v d d' :
  q k = false →
  dict_get k d' = None →
  dict_set k v (filter_keys q d ++ d') = filter_keys q d ++ d' ++ [(k, v)].
Proof.
  intros Hq Hd'. rewrite dict_set_absent, <- app_assoc; [done|].
  by rewrite dict_get_app, dict_get_filter_keys, Hq.
Qed.

Lemma dict_set_dropped_nil q k v d :
  q k = false →
  dict_set k v (filter_keys q d) = filter_keys q d ++ [(k, v)].
Proof.
  intros Hq. apply dict_set_absent. by rewrite dict_get_filter_keys, Hq.
Qed.

Lemma filter_keys_nil q : filter_keys q ([] : list (string * V)) = [].
Proof. done. Qed.

Lemma filter_keys_cons q k v d :
  filter_keys q ((k, v) :: d) =
  if q k then (k, v) :: filter_keys q d else filter_keys q d.
Proof. done. Qed.
End DictKeys.

(** After the walk through [_prepare_data]: the function as one filter of
    the input followed by the two parts that it writes back. *)
Lemma prepare_fields_eq kwargs :
  Weave.prepare_fields kwargs =
  d ← dict_items (dict_get_default "standard_logging_data" kwargs VNone);
  md ← Weave._redact_and_clean_metadata (dict_get_default "metadata" d VNone);
  mmi ← Weave._clean_model_map_information
          (dict_get_default "model_map_information" d VNone);
  Ok {| Weave.f_standard_logging_data :=
          filter_keys kept d ++
          [("metadata", VDict md); ("model_map_information", VDict mmi)];
        Weave.f_call_type := dict_get_default "call_type" d VNone;
        Weave.f_error_str := dict_get_default "error_str" d VNone;
        Weave.f_error_information :=
          dict_get_default "error_information" d VNone;
        Weave.f_response := dict_get_default "response" d VNone |}.
Proof.
  unfold Weave.prepare_fields, Weave._remove_keys_with_tokens,
    Weave._remove_timing_keys, dict_pop.
  destruct (dict_items _) as [d|e]; [|done].
  cbn [mbind result_bind dict_items snd].
  rewrite !dict_comp_keys, !dict_remove_keys, !filter_keys_twice.
  rewrite !dict_get_default_kept by reflexivity.
  destruct (Weave._redact_and_clean_metadata _) as [md|e]; [|done].
  cbn [mbind result_bind].
  rewrite dict_set_dropped_nil by reflexivity.
  rewrite !dict_remove_keys, !filter_keys_app, !filter_keys_twice.
  rewrite !filter_keys_cons, !filter_keys_nil.
  cbn [negb andb String.eqb Ascii.eqb Bool.eqb].
  rewrite dict_get_default_app, dict_get_default_kept by reflexivity.
  change (dict_get_default _ [_] VNone) with VNone.
  destruct (Weave._clean_model_map_information _) as [mmi|e]; [|done].
  cbn [mbind result_bind].
  rewrite dict_set_dropped by reflexivity.
  rewrite !dict_remove_keys, !filter_keys_app, !filter_keys_twice.
  rewrite !filter_keys_cons, !filter_keys_nil.
  cbn [negb andb String.eqb Ascii.eqb Bool.eqb app].
  rewrite !dict_get_default_app, !dict_get_default_kept by reflexivity.
  do 2 f_equal. f_equal. apply filter_keys_ext. intros k.
  unfold kept, dropped_keys, Weave.timing_keys. cbn [existsb]. btauto.
Qed.

(** ** The two cleaning functions *)

Lemma redact_inv src md :
  Weave._redact_and_clean_metadata src = Ok md →
  (truthy src = false ∧ md = []) ∨
  (∃ m n, src = VDict m ∧
     py_len (dict_get_default "applied_guardrails" (clean_entries m)
               (VList [])) = Ok n ∧
     md = if Nat.eqb n 0
          then dict_remove "applied_guardrails" (clean_entries m)
          else clean_entries m).
Proof.
  unfold Weave._redact_and_clean_metadata.
  destruct (truthy src) eqn:Ht; simpl; [|intros [= <-]; by left].
  destruct src as [| | | | | |m]; simpl; try done.
  fold (clean_entries m).
  destruct (py_len _) as [n|e] eqn:Hn; simpl; [|done].
  intros [= <-]. right. by exists m, n.
Qed.

Lemma clean_entries_In m k v :
  In (k, v) (clean_entries m) ↔
  In (k, v) m ∧ contains "_api_" k = false ∧ v ≠ VNone.
Proof.
  unfold clean_entries, dict_comp. rewrite !List.filter_In. simpl.
  rewrite !negb_true_iff.
  assert (is_none v = false ↔ v ≠ VNone) as <- by (by destruct v).
  tauto.
Qed.

Lemma redact_In src md k v :
  Weave._redact_and_clean_metadata src = Ok md →
  In (k, v) md → contains "_api_" k = false ∧ v ≠ VNone.
Proof.
  intros [[_ ->] | (m & n & -> & _ & ->)]%redact_inv; [done|].
  destruct (Nat.eqb n 0).
  - rewrite dict_remove_keys, filter_keys_In, clean_entries_In. tauto.
  - rewrite clean_entries_In. tauto.
Qed.

Lemma dict_get_clean_entries k m :
  contains "_api_" k = false →
  dict_get k m = Some (VList []) →
  dict_get k (clean_entries m) = Some (VList []).
Proof.
  intros Hk. unfold clean_entries, dict_comp.
  induction m as [|[k' v'] m IH]; [done|].
  rewrite dict_get_cons. simpl.
  destruct (String.eqb_spec k' k) as [->|Hne].
  - intros [= ->]. rewrite Hk. simpl. rewrite dict_get_cons. simpl.
    by rewrite String.eqb_refl.
  - intros H. destruct (contains "_api_" k'); simpl; [by apply IH|].
    destruct (is_none v'); simpl; [by apply IH|].
    rewrite dict_get_cons. simpl.
    destruct (String.eqb_spec k' k); [done | by apply IH].
Qed.

Lemma redact_guardrails m md :
  Weave._redact_and_clean_metadata (VDict m) = Ok md →
  dict_get "applied_guardrails" m = Some (VList []) →
  dict_get "applied_guardrails" md = None.
Proof.
  intros [[_ ->] | (m' & n & [= <-] & Hn & ->)]%redact_inv; [done|].
  intros Hg. apply dict_get_clean_entries in Hg; [|done].
  unfold dict_get_default in Hn. rewrite Hg in Hn. simpl in Hn.
  injection Hn as <-. simpl.
  by rewrite dict_remove_keys, dict_get_filter_keys.
Qed.

Lemma clean_entries_fixed m d :
  (∀ kv, In kv d → In kv (clean_entries m)) → clean_entries d = d.
Proof.
  intros Hsub. unfold clean_entries, dict_comp.
  rewrite (filter_id _ d).
  - apply filter_id. intros [k v] Hin.
    apply Hsub, clean_entries_In in Hin as (_ & _ & Hv). by destruct v.
  - intros [k v] Hin. apply Hsub, clean_entries_In in Hin as (_ & Hk & _).
    simpl. by rewrite Hk.
Qed.

(** Cleaning a cleaned metadata dict gives it back. *)
Lemma redact_again src md :
  Weave._redact_and_clean_metadata src = Ok md →
  Weave._redact_and_clean_metadata (VDict md) = Ok md.
Proof.
  intros [[_ ->] | (m & n & -> & Hn & ->)]%redact_inv; [done|].
  unfold Weave._redact_and_clean_metadata.
  destruct (truthy (VDict _)) eqn:Ht; simpl.
  2:{ apply negb_false_iff, Nat.eqb_eq in Ht.
      by rewrite (nil_length_inv _ Ht). }
  fold (clean_entries (if Nat.eqb n 0
                       then dict_remove "applied_guardrails" (clean_entries m)
                       else clean_entries m)).
  rewrite (clean_entries_fixed m).
  2:{ intros [k v]. destruct (Nat.eqb n 0); [|done].
      rewrite dict_remove_keys, filter_keys_In. tauto. }
  destruct (Nat.eqb n 0) eqn:Hz.
  - rewrite !dict_remove_keys, dict_get_default_dropped by reflexivity.
    simpl. rewrite filter_keys_twice. f_equal. apply filter_keys_ext.
    intros k. by destruct (negb _).
  - rewrite Hn. simpl. by rewrite Hz.
Qed.

Lemma non_null_In m k v : In (k, v) (non_null m) ↔ In (k, v) m ∧ v ≠ VNone.
Proof.
  unfold non_null, dict_comp. rewrite List.filter_In. simpl.
  rewrite negb_true_iff.
  assert (is_none v = false ↔ v ≠ VNone) as <- by (by destruct v).
  tauto.
Qed.

Lemma clean_value_In sub k v :
  In (k, v) (clean_value sub) ↔
  In (k, v) sub ∧ v ≠ VNone ∧ contains "support" k = false.
Proof.
  unfold clean_value, dict_comp at 1. rewrite List.filter_In, non_null_In.
  simpl. rewrite negb_true_iff. tauto.
Qed.

Lemma non_null_fixed d : (∀ k v, In (k, v) d → v ≠ VNone) → non_null d = d.
Proof.
  intros H. apply filter_id. intros [k v] Hin. apply H in Hin.
  by destruct v.
Qed.

Lemma clean_value_fixed sub : clean_value (clean_value sub) = clean_value sub.
Proof.
  unfold clean_value at 1. rewrite non_null_fixed.
  - apply filter_id. intros [k v] (_ & _ & Hk)%clean_value_In.
    simpl. by rewrite Hk.
  - intros k v Hin%clean_value_In. tauto.
Qed.

Lemma clean_model_map_inv src mmi :
  Weave._clean_model_map_information src = Ok mmi →
  (truthy src = false ∧ mmi = []) ∨
  (∃ m, src = VDict m ∧
     ((dict_get "model_map_value" (non_null m) = None ∧ mmi = non_null m) ∨
      (∃ sub, dict_get "model_map_value" (non_null m) = Some (VDict sub) ∧
         mmi = dict_set "model_map_value" (VDict (clean_value sub))
                 (non_null m)))).
Proof.
  unfold Weave._clean_model_map_information.
  destruct (truthy src) eqn:Ht; simpl; [|intros [= <-]; by left].
  destruct src as [| | | | | |m]; simpl; try done.
  fold (non_null m). intros H. right. exists m. split; [done|].
  unfold dict_mem, dict_getitem in H.
  destruct (dict_get "model_map_value" (non_null m)) as [v|] eqn:Hv.
  - right. simpl in H.
    destruct v as [| | | | | |sub]; simpl in H; try done.
    rewrite dict_get_set in H. simpl in H. rewrite dict_set_set in H.
    injection H as <-. by exists sub.
  - left. by injection H as <-.
Qed.

Lemma clean_model_map_In src mmi k v :
  Weave._clean_model_map_information src = Ok mmi →
  In (k, v) mmi → v ≠ VNone.
Proof.
  intros [[_ ->] | (m & -> & [[_ ->] | (sub & _ & ->)])]%clean_model_map_inv.
  - done.
  - intros Hin%non_null_In. tauto.
  - intros [[= -> ->] | Hin%non_null_In]%dict_set_In; [done | tauto].
Qed.

Lemma clean_model_map_value src mmi v :
  Weave._clean_model_map_information src = Ok mmi →
  dict_get "model_map_value" mmi = Some v →
  ∃ m sub, src = VDict m ∧
    dict_get "model_map_value" (non_null m) = Some (VDict sub) ∧
    v = VDict (clean_value sub).
Proof.
  intros [[_ ->] | (m & -> & [[Hn ->] | (sub & Hs & ->)])]%clean_model_map_inv.
  - done.
  - by rewrite Hn.
  - rewrite dict_get_set. intros [= <-]. by exists m, sub.
Qed.

(** Cleaning a cleaned model map gives it back. *)
Lemma clean_model_map_again src mmi :
  Weave._clean_model_map_information src = Ok mmi →
  Weave._clean_model_map_information (VDict mmi) = Ok mmi.
Proof.
  intros H. pose proof (λ k v, clean_model_map_In _ _ k v H) as Hnn.
  apply clean_model_map_inv in H
    as [[_ ->] | (m & -> & [[Hn ->] | (sub & Hs & ->)])]; [done| |].
  - unfold Weave._clean_model_map_information.
    destruct (truthy _) eqn:Ht; simpl.
    2:{ apply negb_false_iff, Nat.eqb_eq in Ht.
        by rewrite (nil_length_inv _ Ht). }
    fold (non_null (non_null m)).
    rewrite non_null_fixed by apply Hnn.
    unfold dict_mem. by rewrite Hn.
  - unfold Weave._clean_model_map_information.
    destruct (truthy _) eqn:Ht; simpl.
    2:{ apply negb_false_iff, Nat.eqb_eq in Ht.
        by rewrite (nil_length_inv _ Ht). }
    match goal with |- context [dict_comp _ ?d] => fold (non_null d) end.
    rewrite non_null_fixed by apply Hnn.
    unfold dict_mem, dict_getitem. rewrite dict_get_set. simpl.
    fold (non_null (clean_value sub)).
    rewrite non_null_fixed by (intros k v Hin%clean_value_In; tauto).
    rewrite dict_set_set, dict_get_set. simpl.
    assert (dict_comp (λ k _, negb (contains "support" k)) (clean_value sub)
            = clean_value sub) as ->; [|by rewrite dict_set_set].
    apply filter_id. intros [k v] (_ & _ & Hk)%clean_value_In.
    simpl. by rewrite Hk.
Qed.

(** ** [_prepare_data] *)

Lemma new_WeaveLogData_inv d ct es ei r rec :
  Weave.new_WeaveLogData (VDict d) ct es ei r = Ok rec →
  Weave.standard_logging_data rec = d ∧
  ct = VStr (Weave.call_type rec) ∧
  es = VStr (Weave.error_str rec) ∧
  Weave.as_dict_str ei = Some (Weave.error_information rec) ∧
  r = VDict (Weave.response rec).
Proof.
  unfold Weave.new_WeaveLogData. simpl.
  destruct ct, es; simpl; try done.
  destruct (Weave.as_dict_str ei); try done.
  destruct r; simpl; try done.
  by intros [= <-].
Qed.

(** What a record returned by [_prepare_data] was made from. *)
Lemma prepare_data_inv kwargs rec :
  Weave._prepare_data kwargs = Ok rec →
  ∃ d md mmi,
    dict_get "standard_logging_data" kwargs = Some (VDict d) ∧
    Weave._redact_and_clean_metadata (dict_get_default "metadata" d VNone)
      = Ok md ∧
    Weave._clean_model_map_information
      (dict_get_default "model_map_information" d VNone) = Ok mmi ∧
    Weave.standard_logging_data rec =
      filter_keys kept d ++
      [("metadata", VDict md); ("model_map_information", VDict mmi)] ∧
    dict_get_default "call_type" d VNone = VStr (Weave.call_type rec) ∧
    dict_get_default "error_str" d VNone = VStr (Weave.error_str rec) ∧
    Weave.as_dict_str (dict_get_default "error_information" d VNone)
      = Some (Weave.error_information rec) ∧
    dict_get_default "response" d VNone = VDict (Weave.response rec).
Proof.
  unfold Weave._prepare_data. rewrite prepare_fields_eq.
  destruct (dict_items _) as [d|] eqn:Hd; cbn [mbind result_bind]; [|done].
  assert (dict_get "standard_logging_data" kwargs = Some (VDict d)) as Hkw.
  { unfold dict_get_default in Hd.
    destruct (dict_get _ kwargs) as [[| | | | | |d']|]; simpl in Hd; try done.
    by injection Hd as ->. }
  destruct (Weave._redact_and_clean_metadata _) as [md|] eqn:Hmd;
    cbn [mbind result_bind]; [|done].
  destruct (Weave._clean_model_map_information _) as [mmi|] eqn:Hmmi;
    cbn [mbind result_bind Weave.f_standard_logging_data Weave.f_call_type
         Weave.f_error_str Weave.f_error_information Weave.f_response];
    [|done].
  intros (? & ? & ? & ? & ?)%new_WeaveLogData_inv.
  by exists d, md, mmi.
Qed.

Lemma kept_spec k :
  kept k = true ↔ contains "token" k = false ∧ ¬ In k dropped_keys.
Proof.
  unfold kept. rewrite andb_true_iff, !negb_true_iff.
  rewrite <- (not_true_iff_false (existsb _ _)), existsb_exists.
  split; intros [Ht Hd]; (split; [done|]).
  - intros Hin. apply Hd. exists k. by rewrite String.eqb_refl.
  - intros (k' & Hin & ->%String.eqb_eq). done.
Qed.

(** The mapping that [_prepare_data] builds has pairwise distinct keys when
    its input has: the model stays within Python's dicts. *)
Lemma filter_keys_wf {V} q (d : list (string * V)) :
  dict_wf d → dict_wf (filter_keys q d).
Proof.
  unfold dict_wf. induction d as [|[k v] d IH]; [done|].
  rewrite filter_keys_cons, fmap_cons, NoDup_cons. simpl. intros [Hk Hd].
  destruct (q k); [|by apply IH].
  rewrite fmap_cons. apply NoDup_cons. split; [|by apply IH]. simpl.
  intros ([k' v'] & -> & Hin)%list_elem_of_fmap.
  apply list_elem_of_In, filter_keys_In in Hin as [Hin _].
  apply Hk, list_elem_of_fmap. exists (k', v').
  split; [done|]. by apply list_elem_of_In.
Qed.

Lemma prepare_data_wf kwargs rec d :
  Weave._prepare_data kwargs = Ok rec →
  dict_get "standard_logging_data" kwargs = Some (VDict d) →
  dict_wf d →
  dict_wf (Weave.standard_logging_data rec).
Proof.
  intros (d' & md & mmi & Hd & _ & _ & -> & _)%prepare_data_inv Hd' Hwf.
  rewrite Hd in Hd'. injection Hd' as ->.
  unfold dict_wf. rewrite fmap_app.
  change (fst <$> [_; _]) with ["metadata"; "model_map_information"].
  apply NoDup_app. split; [|split].
  - by apply filter_keys_wf.
  - intros k ([k' v] & Hkk & Hin)%list_elem_of_fmap. simpl in Hkk. subst k'.
    apply list_elem_of_In, filter_keys_In in Hin as [_ Hk].
    intros [E| [E|[]%elem_of_nil]%elem_of_cons]%elem_of_cons;
      by rewrite E in Hk.
  - apply NoDup_cons. split; [|apply NoDup_singleton].
    by intros E%list_elem_of_singleton.
Qed.

(** C3.  A record returned by [_prepare_data] has, in its
    [standard_logging_data], no key that contains "token", no key [stream]
    and none of the four timing keys. *)
Theorem prepare_data_excluded_keys kwargs rec :
  Weave._prepare_data kwargs = Ok rec →
  ∀ k v, In (k, v) (Weave.standard_logging_data rec) →
    contains "token" k = false ∧ k ≠ "stream" ∧ ¬ In k Weave.timing_keys.
Proof.
  intros (d & md & mmi & _ & _ & _ & -> & _)%prepare_data_inv k v.
  rewrite in_app_iff, filter_keys_In, kept_spec.
  intros [(_ & Ht & Hd) | [[= <- _] | [[= <- _] | []]]].
  - split; [done|]. split.
    + intros ->. apply Hd. simpl. auto.
    + intros Hin. apply Hd. simpl in *. intuition.
  - split; [done|]. split; [done|]. simpl. intuition congruence.
  - split; [done|]. split; [done|]. simpl. intuition congruence.
Qed.

Lemma prepare_data_excluded_keys_witness :
  Weave._prepare_data Weave.failed_call = Ok failed_call_record ∧
  ∀ k v, In (k, v) (Weave.standard_logging_data failed_call_record) →
    contains "token" k = false ∧ k ≠ "stream" ∧ ¬ In k Weave.timing_keys.
Proof.
  split; [reflexivity|].
  apply (prepare_data_excluded_keys Weave.failed_call). reflexivity.
Defined.

Lemma dict_get_default_eq {V} k (d : list (string * V)) v dflt :
  dict_get k d = Some v → dict_get_default k d dflt = v.
Proof. unfold dict_get_default. by intros ->. Qed.

Lemma dict_get_written d md mmi :
  dict_get "metadata"
    (filter_keys kept d ++
     [("metadata", VDict md); ("model_map_information", VDict mmi)])
    = Some (VDict md) ∧
  dict_get "model_map_information"
    (filter_keys kept d ++
     [("metadata", VDict md); ("model_map_information", VDict mmi)])
    = Some (VDict mmi).
Proof. by rewrite !dict_get_app, !dict_get_filter_keys. Qed.

(** C4.  The metadata that [_prepare_data] writes back is a dict that has
    no key containing "_api_" and no [None] value, and that lacks
    [applied_guardrails] when the input metadata maps it to the empty list;
    without input metadata it is the empty dict, and the cleaning step
    itself returns the empty dict for [None]. *)
Theorem prepare_data_metadata kwargs rec :
  Weave._prepare_data kwargs = Ok rec →
  Weave._redact_and_clean_metadata VNone = Ok [] ∧
  ∃ d md,
    dict_get "standard_logging_data" kwargs = Some (VDict d) ∧
    dict_get "metadata" (Weave.standard_logging_data rec) = Some (VDict md) ∧
    (∀ k v, In (k, v) md → contains "_api_" k = false ∧ v ≠ VNone) ∧
    (∀ m, dict_get "metadata" d = Some (VDict m) →
          dict_get "applied_guardrails" m = Some (VList []) →
          dict_get "applied_guardrails" md = None) ∧
    (dict_get "metadata" d = None → md = []).
Proof.
  intros (d & md & mmi & Hd & Hmd & _ & -> & _)%prepare_data_inv.
  split; [done|]. exists d, md.
  split; [done|]. split; [apply dict_get_written|].
  unfold dict_get_default in Hmd. split; [|split].
  - intros k v. by eapply redact_In.
  - intros m Hm. rewrite Hm in Hmd. by apply redact_guardrails.
  - intros Hm. rewrite Hm in Hmd. by injection Hmd.
Qed.

Lemma prepare_data_metadata_witness :
  Weave._prepare_data Weave.failed_call = Ok failed_call_record ∧
  Weave._redact_and_clean_metadata VNone = Ok [] ∧
  ∃ d md,
    dict_get "standard_logging_data" Weave.failed_call = Some (VDict d) ∧
    dict_get "metadata" (Weave.standard_logging_data failed_call_record)
      = Some (VDict md) ∧
    (∀ k v, In (k, v) md → contains "_api_" k = false ∧ v ≠ VNone) ∧
    (∀ m, dict_get "metadata" d = Some (VDict m) →
          dict_get "applied_guardrails" m = Some (VList []) →
          dict_get "applied_guardrails" md = None) ∧
    (dict_get "metadata" d = None → md = []).
Proof.
  split; [reflexivity|].
  apply (prepare_data_metadata Weave.failed_call). reflexivity.
Defined.

(** C5.  The model map information that [_prepare_data] writes back is a
    dict with no [None] value; a [model_map_value] in it is a dict with no
    [None] value and no key containing "support", namely the cleaned
    [model_map_value] of the input; without input model map information it
    is the empty dict, and the cleaning step itself returns the empty dict
    for [None]. *)
Theorem prepare_data_model_map kwargs rec :
  Weave._prepare_data kwargs = Ok rec →
  Weave._clean_model_map_information VNone = Ok [] ∧
  ∃ d mmi,
    dict_get "standard_logging_data" kwargs = Some (VDict d) ∧
    dict_get "model_map_information" (Weave.standard_logging_data rec)
      = Some (VDict mmi) ∧
    (∀ k v, In (k, v) mmi → v ≠ VNone) ∧
    (∀ v, dict_get "model_map_value" mmi = Some v →
       ∃ m sub0 sub,
         dict_get "model_map_information" d = Some (VDict m) ∧
         dict_get "model_map_value" (non_null m) = Some (VDict sub0) ∧
         sub = clean_value sub0 ∧ v = VDict sub ∧
         ∀ k' v', In (k', v') sub →
           v' ≠ VNone ∧ contains "support" k' = false) ∧
    (dict_get "model_map_information" d = None → mmi = []).
Proof.
  intros (d & md & mmi & Hd & _ & Hmmi & -> & _)%prepare_data_inv.
  split; [done|]. exists d, mmi.
  split; [done|]. split; [apply dict_get_written|].
  unfold dict_get_default in Hmmi. split; [|split].
  - intros k v. by eapply clean_model_map_In.
  - intros v Hv.
    destruct (clean_model_map_value _ _ _ Hmmi Hv) as (m & sub & Hm & Hs & ->).
    exists m, sub, (clean_value sub).
    destruct (dict_get "model_map_information" d) as [x|]; simpl in Hm;
      [|done].
    subst x. do 4 (split; [done|]).
    intros k' v' Hin%clean_value_In. tauto.
  - intros Hm. rewrite Hm in Hmmi. by injection Hmmi.
Qed.

Lemma prepare_data_model_map_witness :
  Weave._prepare_data Weave.failed_call = Ok failed_call_record ∧
  Weave._clean_model_map_information VNone = Ok [] ∧
  ∃ d mmi,
    dict_get "standard_logging_data" Weave.failed_call = Some (VDict d) ∧
    dict_get "model_map_information"
      (Weave.standard_logging_data failed_call_record) = Some (VDict mmi) ∧
    (∀ k v, In (k, v) mmi → v ≠ VNone) ∧
    (∀ v, dict_get "model_map_value" mmi = Some v →
       ∃ m sub0 sub,
         dict_get "model_map_information" d = Some (VDict m) ∧
         dict_get "model_map_value" (non_null m) = Some (VDict sub0) ∧
         sub = clean_value sub0 ∧ v = VDict sub ∧
         ∀ k' v', In (k', v') sub →
           v' ≠ VNone ∧ contains "support" k' = false) ∧
    (dict_get "model_map_information" d = None → mmi = []).
Proof.
  split; [reflexivity|].
  apply (prepare_data_model_map Weave.failed_call). reflexivity.
Defined.

(** C2, as the specification has it, fails: without [standard_logging_data]
    the call raises, but the exception is an [AttributeError]. *)
Lemma prepare_data_missing_data_counterexample :
  dict_get "standard_logging_data" ([] : dict) = None ∧
  ∃ e, Weave._prepare_data [] = Raise e ∧ exn_class e ≠ "MissingDataError".
Proof. split; [done|]. by exists (AttributeError "items"). Qed.

(** C2, amended.  When [kwargs] holds no dict under
    [standard_logging_data], [_prepare_data] raises the [AttributeError] of
    the missing method [items], and so returns no record. *)
Theorem prepare_data_missing_data kwargs :
  (∀ d, dict_get "standard_logging_data" kwargs ≠ Some (VDict d)) →
  Weave._prepare_data kwargs = Raise (AttributeError "items") ∧
  exn_class (AttributeError "items") = "AttributeError" ∧
  ∀ rec, Weave._prepare_data kwargs ≠ Ok rec.
Proof.
  intros Hno.
  assert (Weave._prepare_data kwargs = Raise (AttributeError "items")) as ->.
  { unfold Weave._prepare_data. rewrite prepare_fields_eq.
    unfold dict_get_default.
    destruct (dict_get _ kwargs) as [[| | | | | |d]|]; try done.
    by destruct (Hno d). }
  done.
Qed.

Lemma prepare_data_missing_data_witness :
  (∀ d, dict_get "standard_logging_data"
          [("standard_logging_data", VList [])] ≠ Some (VDict d)) ∧
  Weave._prepare_data [("standard_logging_data", VList [])]
    = Raise (AttributeError "items") ∧
  exn_class (AttributeError "items") = "AttributeError" ∧
  ∀ rec, Weave._prepare_data [("standard_logging_data", VList [])] ≠ Ok rec.
Proof.
  assert (∀ d, dict_get "standard_logging_data"
                 [("standard_logging_data", VList [])] ≠ Some (VDict d))
    as H by (intros d; discriminate).
  split; [exact H|].
  exact (prepare_data_missing_data [("standard_logging_data", VList [])] H).
Defined.

(** C1, as the specification has it, fails: the [inputs] of the start
    payload of a sanitised record hold [call_type] and [response]. *)
Lemma start_payload_inputs_counterexample :
  Weave._prepare_data Weave.failed_call = Ok failed_call_record ∧
  ∃ start inputs,
    Weave.start_payload some_credentials failed_call_record
      "2024-05-01T10:00:00" = VDict [("start", VDict start)] ∧
    dict_get "inputs" start = Some (VDict inputs) ∧
    dict_get "call_type" inputs = Some (VStr "completion") ∧
    dict_get "response" inputs = Some (VDict [("id", VStr "r1")]).
Proof. split; [reflexivity|]. by eexists _, _. Qed.

(** C1, amended.  For a record that [_prepare_data] returns, the start
    payload is the serialised dict [{start: {project_id, op_name,
    display_name, started_at, attributes, inputs}}], where [op_name] and
    [display_name] are "litellm." followed by the [call_type], [attributes]
    is empty, [started_at] is the given time, [project_id] is
    "entity/project" for a non-empty entity and the project otherwise, and
    [inputs] is the record's [standard_logging_data]: it has no [error_str]
    and no [error_information], and it keeps [call_type] and [response]. *)
Theorem start_payload_shape json_dumps self kwargs rec start_time_str :
  Weave._prepare_data kwargs = Ok rec →
  Weave._prepare_call_start_payload json_dumps self rec start_time_str =
    json_dumps (VDict
      [("start", VDict
         [("project_id",
            VStr (if Weave.wandb_entity (Weave.credentials self) =? ""
                  then Weave.weave_project (Weave.credentials self)
                  else Weave.wandb_entity (Weave.credentials self) ++ "/" ++
                       Weave.weave_project (Weave.credentials self)));
          ("op_name", VStr ("litellm." ++ Weave.call_type rec));
          ("display_name", VStr ("litellm." ++ Weave.call_type rec));
          ("started_at", VStr start_time_str);
          ("attributes", VDict []);
          ("inputs", VDict (Weave.standard_logging_data rec))])]) ∧
  dict_get "error_str" (Weave.standard_logging_data rec) = None ∧
  dict_get "error_information" (Weave.standard_logging_data rec) = None ∧
  dict_get "call_type" (Weave.standard_logging_data rec)
    = Some (VStr (Weave.call_type rec)) ∧
  dict_get "response" (Weave.standard_logging_data rec)
    = Some (VDict (Weave.response rec)).
Proof.
  intros (d & md & mmi & _ & _ & _ & Hd & Hct & _ & _ & Hr)%prepare_data_inv.
  split.
  - unfold Weave._prepare_call_start_payload, Weave.start_payload. simpl.
    by destruct (_ =? _).
  - rewrite Hd, !dict_get_app, !dict_get_filter_keys. simpl.
    unfold dict_get_default in Hct, Hr.
    destruct (dict_get "call_type" d); simpl in Hct; [|done].
    destruct (dict_get "response" d); simpl in Hr; [|done].
    by subst.
Qed.

Lemma start_payload_shape_witness :
  Weave._prepare_data Weave.failed_call = Ok failed_call_record ∧
  Weave._prepare_call_start_payload (λ _, "{}") some_logger
    failed_call_record "2024-05-01T10:00:00" = "{}" ∧
  dict_get "error_str" (Weave.standard_logging_data failed_call_record)
    = None ∧
  dict_get "error_information"
    (Weave.standard_logging_data failed_call_record) = None ∧
  dict_get "call_type" (Weave.standard_logging_data failed_call_record)
    = Some (VStr "completion") ∧
  dict_get "response" (Weave.standard_logging_data failed_call_record)
    = Some (VDict [("id", VStr "r1")]).
Proof.
  split; [reflexivity|].
  apply (start_payload_shape (λ _, "{}") some_logger Weave.failed_call
           failed_call_record "2024-05-01T10:00:00").
  reflexivity.
Defined.

(** C6, as the specification has it, fails: sanitising the mapping of a
    sanitised record does not give the record back. *)
Lemma prepare_data_twice_counterexample :
  Weave._prepare_data Weave.failed_call = Ok failed_call_record ∧
  Weave._prepare_data
    (Weave.as_kwargs (Weave.standard_logging_data failed_call_record))
    ≠ Ok failed_call_record.
Proof. split; [reflexivity | discriminate]. Qed.

(** C6, amended.  The steps of [_prepare_data] are idempotent on the
    mapping: run on the [standard_logging_data] that they produced, they
    produce it again, with the same [call_type] and [response]; [error_str]
    and [error_information], which the first run took out of the mapping,
    are [None] in the second. *)
Theorem prepare_fields_idempotent kwargs f :
  Weave.prepare_fields kwargs = Ok f →
  Weave.prepare_fields (Weave.as_kwargs (Weave.f_standard_logging_data f)) =
    Ok {| Weave.f_standard_logging_data := Weave.f_standard_logging_data f;
          Weave.f_call_type := Weave.f_call_type f;
          Weave.f_error_str := VNone;
          Weave.f_error_information := VNone;
          Weave.f_response := Weave.f_response f |}.
Proof.
  rewrite !prepare_fields_eq.
  destruct (dict_items _) as [d|]; cbn [mbind result_bind]; [|done].
  destruct (Weave._redact_and_clean_metadata _) as [md|] eqn:Hmd;
    cbn [mbind result_bind]; [|done].
  destruct (Weave._clean_model_map_information _) as [mmi|] eqn:Hmmi;
    cbn [mbind result_bind]; [|done].
  intros [= <-]. cbn [Weave.f_standard_logging_data Weave.f_call_type
                      Weave.f_response].
  change (dict_get_default "standard_logging_data" (Weave.as_kwargs ?x) VNone)
    with (VDict x).
  cbn [dict_items mbind result_bind].
  destruct (dict_get_written d md mmi) as [Hm1 Hm2].
  rewrite (dict_get_default_eq _ _ _ _ Hm1), (dict_get_default_eq _ _ _ _ Hm2).
  rewrite (redact_again _ _ Hmd), (clean_model_map_again _ _ Hmmi).
  cbn [mbind result_bind].
  rewrite !dict_get_default_app.
  rewrite !dict_get_default_kept, !dict_get_default_dropped by reflexivity.
  rewrite (dict_get_default_kept kept "response") by reflexivity.
  rewrite filter_keys_app, filter_keys_twice.
  rewrite (filter_keys_ext (λ k, kept k && kept k) kept)
    by (intros; apply andb_diag).
  change (filter_keys kept [_; _]) with ([] : dict).
  by rewrite app_nil_r.
Qed.

Lemma prepare_fields_idempotent_witness :
  ∃ f, Weave.prepare_fields Weave.scenario = Ok f ∧
    Weave.prepare_fields (Weave.as_kwargs (Weave.f_standard_logging_data f)) =
    Ok {| Weave.f_standard_logging_data := Weave.f_standard_logging_data f;
          Weave.f_call_type := Weave.f_call_type f;
          Weave.f_error_str := VNone;
          Weave.f_error_information := VNone;
          Weave.f_response := Weave.f_response f |}.
Proof.
  eexists. split; [reflexivity|].
  apply (prepare_fields_idempotent Weave.scenario). reflexivity.
Defined.

(** C7, on the code: [_prepare_data] reads [error_str], [error_information]
    and [response] with a default of [None], and the steps go through
    without them; but [WeaveLogData] declares the three fields without
    [Optional], and the record is refused as soon as one is absent. *)
Theorem prepare_data_absent_optional_fields :
  (is_ok (Weave.prepare_fields Weave.scenario) = true ∧
   Weave._prepare_data Weave.scenario = Raise (ValidationError "WeaveLogData")) ∧
  (is_ok (Weave.prepare_fields success_call) = true ∧
   Weave._prepare_data success_call = Raise (ValidationError "WeaveLogData")) ∧
  (is_ok (Weave.prepare_fields no_response_call) = true ∧
   Weave._prepare_data no_response_call
     = Raise (ValidationError "WeaveLogData")).
Proof. done. Qed.

(** A record exists only when the three values are present. *)
Lemma prepare_data_needs_error_and_response kwargs rec :
  Weave._prepare_data kwargs = Ok rec →
  ∃ d ei,
    dict_get "standard_logging_data" kwargs = Some (VDict d) ∧
    dict_get "error_str" d = Some (VStr (Weave.error_str rec)) ∧
    dict_get "error_information" d = Some (VDict ei) ∧
    dict_get "response" d = Some (VDict (Weave.response rec)).
Proof.
  intros (d & md & mmi & Hd & _ & _ & _ & _ & Hes & Hei & Hr)%prepare_data_inv.
  unfold dict_get_default in *.
  destruct (dict_get "error_str" d) eqn:E1; simpl in Hes; [|done].
  destruct (dict_get "response" d) eqn:E2; simpl in Hr; [|done].
  destruct (dict_get "error_information" d) as [[| | | | | |ei]|] eqn:E3;
    simpl in Hei; try done.
  subst. by exists d, ei.
Qed.

(** ** Credentials *)

Lemma credentials_need_api_key getenv k e p :
  or_str k (getenv "WANDB_API_KEY") = None →
  is_ok (Weave._get_credentials_from_env getenv k e p) = false.
Proof.
  unfold Weave._get_credentials_from_env. intros H. cbv zeta. by rewrite H.
Qed.

Lemma credentials_need_project getenv k e p :
  or_str p (getenv "WANDB_PROJECT") = None →
  is_ok (Weave._get_credentials_from_env getenv k e p) = false.
Proof.
  unfold Weave._get_credentials_from_env. intros H. cbv zeta. rewrite H.
  by destruct (or_str k _).
Qed.

Lemma construction_needs_credentials getenv super k e p url kwargs :
  is_ok (Weave._get_credentials_from_env getenv k e p) = false →
  is_ok (Weave.WeaveLogger_init getenv super k e p url kwargs) = false.
Proof.
  unfold Weave.WeaveLogger_init.
  by destruct (Weave._get_credentials_from_env _ _ _ _).
Qed.

Lemma credentials_resolved getenv k e p k' e' p' :
  or_str k (getenv "WANDB_API_KEY") = Some k' →
  or_str e (getenv "WANDB_ENTITY") = Some e' →
  or_str p (getenv "WANDB_PROJECT") = Some p' →
  Weave._get_credentials_from_env getenv k e p =
  Ok {| Weave.wandb_api_key := k'; Weave.wandb_entity := e';
        Weave.weave_project := p' |}.
Proof.
  unfold Weave._get_credentials_from_env. intros Hk He Hp. cbv zeta.
  by rewrite Hk, He, Hp.
Qed.

(** C8, on the code: with an API key and a project and no entity, neither
    passed nor in the environment, [WeaveCredentials] gets [None] for its
    field [wandb_entity], declared [str], and the construction fails. *)
Theorem construction_without_entity CustomLogger_init weave_base_url kwargs :
  or_str None ((λ _, None) "WANDB_ENTITY") = None ∧
  Weave.WeaveLogger_init (λ _, None) CustomLogger_init
    (Some "key") None (Some "proj") weave_base_url kwargs
  = Raise (ValidationError "WeaveCredentials").
Proof. done. Qed.

(** ** The logging hooks *)

(** C10.  [_prepare_call_end_payload] returns [None].  [WeaveLogger]
    defines neither [_log_call_start] nor [_log_call_end]; when the base
    class does not provide [_log_call_start] either, both hooks fail on
    every call, and on a call whose data [_prepare_data] accepts they fail
    with the [AttributeError] of [_log_call_start], before anything else is
    called. *)
Theorem hooks_raise (datetime : Type) (isoformat : datetime → string)
    CustomLogger_method self kwargs response_obj start_time end_time :
  CustomLogger_method "_log_call_start" = None →
  (∀ log_data end_time_str,
     Weave._prepare_call_end_payload log_data end_time_str = VNone) ∧
  existsb (String.eqb "_log_call_start") Weave.WeaveLogger_defines = false ∧
  existsb (String.eqb "_log_call_end") Weave.WeaveLogger_defines = false ∧
  is_ok (Weave.log_success_event datetime isoformat CustomLogger_method
           self kwargs response_obj start_time end_time) = false ∧
  is_ok (Weave.log_failure_event datetime isoformat CustomLogger_method
           self kwargs response_obj start_time end_time) = false ∧
  ∀ rec, Weave._prepare_data kwargs = Ok rec →
    Weave.log_success_event datetime isoformat CustomLogger_method
      self kwargs response_obj start_time end_time
      = Raise (AttributeError "_log_call_start") ∧
    Weave.log_failure_event datetime isoformat CustomLogger_method
      self kwargs response_obj start_time end_time
      = Raise (AttributeError "_log_call_start").
Proof.
  intros Hbase.
  unfold Weave.log_success_event, Weave.log_failure_event, Weave.inherited.
  rewrite Hbase. do 3 (split; [done|]).
  destruct (Weave._prepare_data kwargs) as [rec|e]; simpl.
  - do 2 (split; [done|]). by intros ? _.
  - do 2 (split; [done|]). by intros ? ?.
Qed.

Lemma hooks_raise_witness :
  (λ _ : string, @None (Weave.WeaveLogData → string → result unit))
    "_log_call_start" = None ∧
  (∀ log_data end_time_str,
     Weave._prepare_call_end_payload log_data end_time_str = VNone) ∧
  existsb (String.eqb "_log_call_start") Weave.WeaveLogger_defines = false ∧
  existsb (String.eqb "_log_call_end") Weave.WeaveLogger_defines = false ∧
  is_ok (Weave.log_success_event string id (λ _, None) some_logger
           Weave.failed_call VNone "2024-05-01T10:00:00"
           "2024-05-01T10:00:02") = false ∧
  is_ok (Weave.log_failure_event string id (λ _, None) some_logger
           Weave.failed_call VNone "2024-05-01T10:00:00"
           "2024-05-01T10:00:02") = false ∧
  ∀ rec, Weave._prepare_data Weave.failed_call = Ok rec →
    Weave.log_success_event string id (λ _, None) some_logger
      Weave.failed_call VNone "2024-05-01T10:00:00" "2024-05-01T10:00:02"
      = Raise (AttributeError "_log_call_start") ∧
    Weave.log_failure_event string id (λ _, None) some_logger
      Weave.failed_call VNone "2024-05-01T10:00:00" "2024-05-01T10:00:02"
      = Raise (AttributeError "_log_call_start").
Proof.
  split; [reflexivity|].
  apply (hooks_raise string id (λ _, None) some_logger Weave.failed_call
           VNone "2024-05-01T10:00:00" "2024-05-01T10:00:02").
  reflexivity.
Defined.

(** ** Stores *)

Lemma extends_refl σ : extends σ σ.
Proof. by intros l o. Qed.

Lemma extends_trans σ1 σ2 σ3 : extends σ1 σ2 → extends σ2 σ3 → extends σ1 σ3.
Proof. intros H1 H2 l o Hl. by apply H2, H1. Qed.

Lemma extends_length σ σ' : extends σ σ' → length σ ≤ length σ'.
Proof.
  intros H. destruct (decide (length σ ≤ length σ')) as [|Hn]; [done|].
  destruct (lookup_lt_is_Some_2 σ (length σ')) as [o Ho]; [lia|].
  apply H, lookup_lt_Some in Ho. lia.
Qed.

Lemma extends_app σ F : extends σ (σ ++ F).
Proof. intros l o Hl. by apply lookup_app_l_Some. Qed.

Lemma extends_prefix σ σ' : extends σ σ' ↔ σ `prefix_of` σ'.
Proof.
  split.
  - intros H. exists (drop (length σ) σ').
    rewrite <- (take_drop (length σ) σ') at 1. f_equal.
    apply list_eq. intros i. destruct (σ !! i) as [o|] eqn:Hi.
    + rewrite lookup_take_lt by (by eapply lookup_lt_Some).
      apply H in Hi as Hi'. congruence.
    + apply lookup_ge_None in Hi. rewrite (proj2 (lookup_ge_None _ _)); [done|].
      rewrite length_take. lia.
  - intros [F ->]. apply extends_app.
Qed.

Lemma extends_extends_off l σ σ' : extends σ σ' → extends_off l σ σ'.
Proof. intros H l' o _. apply H. Qed.

Lemma extends_off_trans l σ1 σ2 σ3 :
  extends_off l σ1 σ2 → extends_off l σ2 σ3 → extends_off l σ1 σ3.
Proof. intros H1 H2 l' o Hne Hl. by apply H2, H1. Qed.

Lemma extends_off_fresh l σ0 σ σ' :
  extends σ0 σ → extends_off l σ σ' → length σ0 ≤ l → extends σ0 σ'.
Proof.
  intros H0 H Hl l' o Hl'. apply H; [|by apply H0].
  apply lookup_lt_Some in Hl'. lia.
Qed.

Lemma extends_off_from l b σ σ' :
  extends_off l σ σ' → l < b → extends_from b σ σ'.
Proof. intros H Hl l' o Hb. apply H. lia. Qed.

Lemma extends_off_insert l o σ : extends_off l σ (<[l := o]> σ).
Proof. intros l' o' Hne Hl'. by rewrite list_lookup_insert_ne. Qed.

(** ** Running a computation *)

Lemma wp_ret {A} (a : A) σ Q : Q (Ok a) σ → wp (mret a) σ Q.
Proof. intros H. by exists (Ok a), σ. Qed.

Lemma wp_raise {A} e σ (Q : result A → _) :
  Q (Raise e) σ → wp (Store.raise e) σ Q.
Proof. intros H. by exists (Raise e), σ. Qed.

Lemma wp_bind {A B} (m : Store.M A) (f : A → Store.M B) σ Q :
  wp m σ (λ r σ', match r with
                  | Ok a => wp (f a) σ' Q
                  | Raise e => Q (Raise e) σ'
                  end) →
  wp (m ≫= f) σ Q.
Proof.
  intros (r & σ' & Hm & H). destruct r as [a|e].
  - destruct H as (r' & σ'' & Hf & HQ). exists r', σ''. split; [|done].
    unfold mbind, Store.M_bind. by rewrite Hm.
  - exists (Raise e), σ'. split; [|done].
    unfold mbind, Store.M_bind. by rewrite Hm.
Qed.

Lemma wp_mono {A} (m : Store.M A) σ (Q Q' : result A → _) :
  (∀ r σ', Q r σ' → Q' r σ') → wp m σ Q → wp m σ Q'.
Proof. intros HQ (r & σ' & Hm & H). exists r, σ'. auto. Qed.

Lemma wp_alloc o σ Q :
  (∀ σ', extends σ σ' → σ' !! length σ = Some o → Q (Ok (length σ)) σ') →
  wp (Store.alloc o) σ Q.
Proof.
  intros H. exists (Ok (length σ)), (σ ++ [o]). split; [done|].
  apply H; [apply extends_app|]. by rewrite list_lookup_middle.
Qed.

Lemma wp_load_dict l d σ Q :
  σ !! l = Some (Store.ODict d) → Q (Ok d) σ → wp (Store.load_dict l) σ Q.
Proof.
  intros Hl H. exists (Ok d), σ. split; [|done].
  unfold Store.load_dict, Store.load, mbind, Store.M_bind. by rewrite Hl.
Qed.

Lemma wp_store_dict l d σ Q :
  is_Some (σ !! l) →
  (∀ σ', extends_off l σ σ' → σ' !! l = Some (Store.ODict d) →
         Q (Ok tt) σ') →
  wp (Store.store_dict l d) σ Q.
Proof.
  intros Hl%lookup_lt_is_Some H.
  exists (Ok tt), (<[l := Store.ODict d]> σ). split.
  - unfold Store.store_dict. by rewrite bool_decide_eq_true_2.
  - apply H; [apply extends_off_insert|]. by apply list_lookup_insert_eq.
Qed.

Lemma wp_get l k dflt d σ Q :
  σ !! l = Some (Store.ODict d) →
  Q (Ok (dict_get_default k d dflt)) σ →
  wp (Store.get l k dflt) σ Q.
Proof.
  intros Hl H. apply wp_bind. eapply wp_load_dict; [done|]. by apply wp_ret.
Qed.

Lemma wp_pop l k dflt d σ Q :
  σ !! l = Some (Store.ODict d) →
  (∀ σ', extends_off l σ σ' →
         σ' !! l = Some (Store.ODict (dict_remove k d)) →
         Q (Ok (dict_get_default k d dflt)) σ') →
  wp (Store.pop l k dflt) σ Q.
Proof.
  intros Hl H. apply wp_bind. eapply wp_load_dict; [done|].
  apply wp_bind. apply wp_store_dict; [by eexists|].
  intros σ' Hoff Hl'. apply wp_ret. by apply H.
Qed.

Lemma wp_setitem l k v d σ Q :
  σ !! l = Some (Store.ODict d) →
  (∀ σ', extends_off l σ σ' →
         σ' !! l = Some (Store.ODict (dict_set k v d)) →
         Q (Ok tt) σ') →
  wp (Store.setitem l k v) σ Q.
Proof.
  intros Hl H. apply wp_bind. eapply wp_load_dict; [done|].
  apply wp_store_dict; [by eexists | done].
Qed.

Lemma wp_getitem l k d σ Q :
  σ !! l = Some (Store.ODict d) →
  Q (match dict_get k d with
     | Some v => Ok v
     | None => Raise (KeyError k)
     end) σ →
  wp (Store.getitem l k) σ Q.
Proof.
  intros Hl H. apply wp_bind. eapply wp_load_dict; [done|].
  destruct (dict_get k d); [by apply wp_ret | by apply wp_raise].
Qed.

Lemma wp_mem l k d σ Q :
  σ !! l = Some (Store.ODict d) →
  Q (Ok (dict_mem k d)) σ →
  wp (Store.mem l k) σ Q.
Proof.
  intros Hl H. apply wp_bind. eapply wp_load_dict; [done|]. by apply wp_ret.
Qed.

Lemma wp_dict_items_at l d σ Q :
  σ !! l = Some (Store.ODict d) →
  Q (Ok d) σ →
  wp (Store.dict_items (Store.RObj l)) σ Q.
Proof.
  intros Hl H. exists (Ok d), σ. split; [|done].
  unfold Store.dict_items, Store.load, mbind, Store.M_bind. by rewrite Hl.
Qed.

(** ** Related dicts *)

Section Drel.
Context {V W : Type} (R : V → W → Prop).
Implicit Type ds : list (string * V).
Implicit Type d : list (string * W).

Lemma drel_filter_keys q ds d :
  drel R ds d → drel R (filter_keys q ds) (filter_keys q d).
Proof.
  induction 1 as [|[k r] [k' v] ds d [Hk Hr] _ IH]; [constructor|].
  simpl in Hk. subst k'. rewrite !filter_keys_cons.
  destruct (q k); [by constructor | done].
Qed.

Lemma drel_comp (p : V → bool) (p' : W → bool) ds d :
  (∀ r v, R r v → p r = p' v) →
  drel R ds d →
  drel R (dict_comp (λ _ r, p r) ds) (dict_comp (λ _ v, p' v) d).
Proof.
  intros Hp. induction 1 as [|[k r] [k' v] ds d [Hk Hr] _ IH]; [constructor|].
  unfold dict_comp in *. simpl in *. rewrite (Hp _ _ Hr).
  destruct (p' v); [by constructor | done].
Qed.

Lemma drel_get k ds d :
  drel R ds d → option_Forall2 R (dict_get k ds) (dict_get k d).
Proof.
  induction 1 as [|[k1 r] [k' v] ds d [Hk Hr] _ IH]; [constructor|].
  simpl in Hk. subst k'. rewrite !dict_get_cons. simpl.
  destruct (k1 =? k); [by constructor | done].
Qed.

Lemma drel_get_default k ds d r v :
  drel R ds d → R r v →
  R (dict_get_default k ds r) (dict_get_default k d v).
Proof.
  intros H Hr. unfold dict_get_default.
  by destruct (drel_get k _ _ H).
Qed.

Lemma drel_set k r v ds d :
  drel R ds d → R r v → drel R (dict_set k r ds) (dict_set k v d).
Proof.
  intros H Hr.
  induction H as [|[k1 r1] [k' v1] ds d [Hk Hr1] H IH]; simpl.
  - by constructor.
  - simpl in Hk. subst k'. unfold key_is. simpl.
    destruct (k1 =? k); by constructor.
Qed.

Lemma drel_mem k ds d : drel R ds d → dict_mem k ds = dict_mem k d.
Proof. intros H. unfold dict_mem. by destruct (drel_get k _ _ H). Qed.

Lemma drel_length ds d : drel R ds d → length ds = length d.
Proof. apply Forall2_length. Qed.

Lemma drel_app ds d ds' d' :
  drel R ds d → drel R ds' d' → drel R (ds ++ ds') (d ++ d').
Proof. apply Forall2_app. Qed.
End Drel.

Lemma drel_remove {V W} (R : V → W → Prop) k ds d :
  drel R ds d → drel R (dict_remove k ds) (dict_remove k d).
Proof. rewrite !dict_remove_keys. apply drel_filter_keys. Qed.

Lemma drel_mono {V W} (R R' : V → W → Prop) ds d :
  (∀ r v, R r v → R' r v) → drel R ds d → drel R' ds d.
Proof.
  intros H Hd. eapply Forall2_impl; [exact Hd|]. intros a b [? ?]. auto.
Qed.

(** ** The value of a reference *)

Lemma mapM_pair_Some {V W} (f : V → option W) ds d :
  mapM (λ kv, pair (fst kv) <$> f (snd kv)) ds = Some d ↔
  drel (λ r v, f r = Some v) ds d.
Proof.
  rewrite mapM_Some. unfold drel.
  split; intros H; (eapply Forall2_impl; [exact H|]);
    intros [k r] [k' v]; simpl.
  - intros (v' & Hv & [= -> ->])%fmap_Some. done.
  - intros [-> ->]. done.
Qed.

Lemma reify_obj n σ l v :
  Store.reify (S n) σ (Store.RObj l) = Some v ↔
  (∃ rs vs, σ !! l = Some (Store.OList rs) ∧ v = VList vs ∧
     Forall2 (λ r v, Store.reify n σ r = Some v) rs vs) ∨
  (∃ ds d, σ !! l = Some (Store.ODict ds) ∧ v = VDict d ∧
     drel (λ r v, Store.reify n σ r = Some v) ds d).
Proof.
  simpl. destruct (σ !! l) as [[rs|ds]|].
  - rewrite fmap_Some. setoid_rewrite mapM_Some. split.
    + intros (vs & H & ->). left. by exists rs, vs.
    + intros [(rs' & vs & [= <-] & -> & H) | (? & ? & [=] & _)].
      by exists vs.
  - rewrite fmap_Some. setoid_rewrite mapM_pair_Some. split.
    + intros (d & H & ->). right. by exists ds, d.
    + intros [(? & ? & [=] & _) | (ds' & d & [= <-] & -> & H)].
      by exists d.
  - split; [done|]. by intros [(? & ? & [=] & _) | (? & ? & [=] & _)].
Qed.

Lemma reify_mono n m σ σ' r v :
  n ≤ m → extends σ σ' →
  Store.reify n σ r = Some v → Store.reify m σ' r = Some v.
Proof.
  intros Hnm Hext. revert m r v Hnm.
  induction n as [|n IH]; intros m r v Hnm.
  - destruct r; simpl; try done; by destruct m.
  - destruct r as [| | | | |l]; try (by destruct m).
    destruct m as [|m]; [lia|].
    rewrite !reify_obj.
    intros [(rs & vs & Hl & -> & H) | (ds & d & Hl & -> & H)].
    + left. exists rs, vs. split; [by apply Hext|]. split; [done|].
      eapply Forall2_impl; [done|]. intros r v. apply IH. lia.
    + right. exists ds, d. split; [by apply Hext|]. split; [done|].
      eapply drel_mono; [|done]. intros r v. apply IH. lia.
Qed.

Lemma reify_cases n σ r v :
  Store.reify n σ r = Some v →
  match r with
  | Store.RNone => v = VNone
  | Store.RBool b => v = VBool b
  | Store.RInt z => v = VInt z
  | Store.RFloat bits => v = VFloat bits
  | Store.RStr s => v = VStr s
  | Store.RObj l =>
      ∃ n', n = S n' ∧
        ((∃ rs vs, σ !! l = Some (Store.OList rs) ∧ v = VList vs ∧
            Forall2 (λ r v, Store.reify n' σ r = Some v) rs vs) ∨
         (∃ ds d, σ !! l = Some (Store.ODict ds) ∧ v = VDict d ∧
            drel (λ r v, Store.reify n' σ r = Some v) ds d))
  end.
Proof.
  destruct r as [| | | | |l]; try (destruct n; simpl; congruence).
  destruct n as [|n']; [done|]. intros H%reify_obj. by exists n'.
Qed.

Lemma reify_is_none n σ r v :
  Store.reify n σ r = Some v → Store.is_none r = is_none v.
Proof.
  intros H%reify_cases. destruct r; subst; try done.
  by destruct H as (? & _ & [(? & ? & _ & -> & _) | (? & ? & _ & -> & _)]).
Qed.

Lemma reify_as_str n σ r v :
  Store.reify n σ r = Some v → Store.as_str r = Weave.as_str v.
Proof.
  intros H%reify_cases. destruct r; subst; try done.
  by destruct H as (? & _ & [(? & ? & _ & -> & _) | (? & ? & _ & -> & _)]).
Qed.

Section Reflect.
Context (σa σ : Store.store).
Context (Hext : extends σa σ).

Lemma run_load l o : σa !! l = Some o → Store.load l σ = Some (Ok o, σ).
Proof using Hext. intros Hl. unfold Store.load. by rewrite (Hext _ _ Hl). Qed.

Lemma wp_truthy n r v Q :
  Store.reify n σa r = Some v →
  Q (Ok (truthy v)) σ →
  wp (Store.truthy r) σ Q.
Proof using Hext.
  intros H%reify_cases HQ.
  destruct r as [| | | | |l]; subst; try by apply wp_ret.
  destruct H as (n' & -> & [(rs & vs & Hl & -> & H) | (ds & d & Hl & -> & H)]).
  - exists (Ok (negb (Nat.eqb (length rs) 0))), σ. split.
    + unfold Store.truthy, mbind, Store.M_bind. by rewrite (run_load _ _ Hl).
    + simpl in HQ. by rewrite (Forall2_length _ _ _ H).
  - exists (Ok (negb (Nat.eqb (length ds) 0))), σ. split.
    + unfold Store.truthy, mbind, Store.M_bind. by rewrite (run_load _ _ Hl).
    + simpl in HQ. by rewrite (Forall2_length _ _ _ H).
Qed.

Lemma wp_py_len n r v Q :
  Store.reify n σa r = Some v →
  Q (py_len v) σ →
  wp (Store.py_len r) σ Q.
Proof using Hext.
  intros H%reify_cases HQ.
  destruct r as [| | | | |l]; subst;
    try by first [apply wp_ret | apply wp_raise].
  destruct H as (n' & -> & [(rs & vs & Hl & -> & H) | (ds & d & Hl & -> & H)]).
  - exists (Ok (length rs)), σ. split.
    + unfold Store.py_len, mbind, Store.M_bind. by rewrite (run_load _ _ Hl).
    + simpl in HQ. by rewrite (Forall2_length _ _ _ H).
  - exists (Ok (length ds)), σ. split.
    + unfold Store.py_len, mbind, Store.M_bind. by rewrite (run_load _ _ Hl).
    + simpl in HQ. by rewrite (Forall2_length _ _ _ H).
Qed.

Lemma wp_dict_items n r v Q :
  Store.reify n σa r = Some v →
  match dict_items v with
  | Ok d => ∀ ds, drel (λ r v, Store.reify n σa r = Some v) ds d →
                  Q (Ok ds) σ
  | Raise e => Q (Raise e) σ
  end →
  wp (Store.dict_items r) σ Q.
Proof using Hext.
  intros H%reify_cases HQ.
  destruct r as [| | | | |l]; subst; try by apply wp_raise.
  destruct H as (n' & -> & [(rs & vs & Hl & -> & H) | (ds & d & Hl & -> & H)]).
  - exists (Raise (AttributeError "items")), σ. split; [|done].
    unfold Store.dict_items, mbind, Store.M_bind. by rewrite (run_load _ _ Hl).
  - exists (Ok ds), σ. split.
    + unfold Store.dict_items, mbind, Store.M_bind.
      by rewrite (run_load _ _ Hl).
    + apply HQ. eapply drel_mono; [|done].
      intros r v. apply reify_mono; [lia | apply extends_refl].
Qed.

Lemma wp_as_dict n r v Q :
  Store.reify n σa r = Some v →
  match Weave.as_dict v with
  | Some d => ∀ ds, drel (λ r v, Store.reify n σa r = Some v) ds d →
                    Q (Ok (Some ds)) σ
  | None => Q (Ok None) σ
  end →
  wp (Store.as_dict r) σ Q.
Proof using Hext.
  intros H%reify_cases HQ.
  destruct r as [| | | | |l]; subst; try by apply wp_ret.
  destruct H as (n' & -> & [(rs & vs & Hl & -> & H) | (ds & d & Hl & -> & H)]).
  - exists (Ok None), σ. split; [|done].
    unfold Store.as_dict, mbind, Store.M_bind. by rewrite (run_load _ _ Hl).
  - exists (Ok (Some ds)), σ. split.
    + unfold Store.as_dict, mbind, Store.M_bind. by rewrite (run_load _ _ Hl).
    + apply HQ. eapply drel_mono; [|done].
      intros r v. apply reify_mono; [lia | apply extends_refl].
Qed.
End Reflect.

(** ** The cleaning functions on the store *)

Lemma dict_items_Ok v m : dict_items v = Ok m → v = VDict m.
Proof. destruct v; simpl; congruence. Qed.

Lemma reify_dict_at n σ l ds d :
  σ !! l = Some (Store.ODict ds) →
  drel (λ r v, Store.reify n σ r = Some v) ds d →
  Store.reify (S n) σ (Store.RObj l) = Some (VDict d).
Proof. intros Hl H. apply reify_obj. right. by exists ds, d. Qed.

Lemma drel_reify_mono n m σ σ' ds d :
  n ≤ m → extends σ σ' →
  drel (λ r v, Store.reify n σ r = Some v) ds d →
  drel (λ r v, Store.reify m σ' r = Some v) ds d.
Proof. intros Hnm Hext. apply drel_mono. intros r v. by apply reify_mono. Qed.

Lemma wp_redact n σ0 σ r v Q :
  extends σ0 σ →
  Store.reify n σ0 r = Some v →
  (∀ σ', extends σ σ' →
     match Weave._redact_and_clean_metadata v with
     | Ok md =>
         ∀ l, length σ ≤ l →
           (∀ σ'', extends σ0 σ'' → extends_from (length σ) σ' σ'' →
              Store.reify (S n) σ'' (Store.RObj l) = Some (VDict md)) →
           Q (Ok l) σ'
     | Raise e => Q (Raise e) σ'
     end) →
  wp (Store._redact_and_clean_metadata r) σ Q.
Proof.
  intros Hext Hr HQ.
  unfold Store._redact_and_clean_metadata, Store.new_dict.
  unfold Weave._redact_and_clean_metadata in HQ.
  apply wp_bind. eapply wp_truthy; [exact Hext | exact Hr |].
  destruct (truthy v) eqn:Ht; cbn [negb] in *.
  2:{ apply wp_alloc. intros σ1 H1 Hl1. apply (HQ σ1 H1); [done|].
      intros σ2 _ H2. eapply reify_dict_at; [|constructor].
      by apply H2. }
  apply wp_bind. eapply wp_dict_items; [exact Hext | exact Hr |].
  destruct (dict_items v) as [m|e] eqn:Hm; cbn [mbind result_bind] in HQ.
  2:{ apply (HQ σ), extends_refl. }
  intros ds Hds.
  apply wp_bind, wp_alloc. intros σ1 H1 Hl1.
  apply wp_bind. eapply wp_dict_items_at; [exact Hl1|].
  apply wp_bind, wp_alloc. intros σ2 H2 Hl2.
  apply wp_bind, wp_alloc. intros σ3 H3 Hl3.
  apply wp_bind. eapply wp_get; [apply H3, Hl2|].
  pose proof (extends_trans _ _ _ H1 (extends_trans _ _ _ H2 H3)) as H13.
  pose proof (extends_trans _ _ _ Hext H13) as H03.
  assert (drel (λ r v, Store.reify n σ0 r = Some v)
            (dict_comp (λ _ v, negb (Store.is_none v))
               (dict_comp (λ k _, negb (contains "_api_" k)) ds))
            (clean_entries m)) as Hc.
  { unfold clean_entries.
    apply (drel_comp _ (λ r, negb (Store.is_none r)) (λ v, negb (is_none v))).
    - intros r' v' Hr'. by rewrite (reify_is_none _ _ _ _ Hr').
    - rewrite !dict_comp_keys. by apply drel_filter_keys. }
  fold (clean_entries m) in HQ.
  apply wp_bind.
  eapply (wp_py_len σ3 σ3 (extends_refl _) (S n)).
  { apply (drel_get_default (λ r v, Store.reify (S n) σ3 r = Some v)).
    - by apply (drel_reify_mono n (S n) σ0); [lia | exact H03 |].
    - eapply reify_obj. left. exists [], []. by repeat split. }
  destruct (py_len _) as [k|e] eqn:Hk; cbn [mbind result_bind] in HQ.
  2:{ apply (HQ σ3 H13). }
  assert (length σ ≤ length σ1) as Hlen by (by apply extends_length).
  destruct (Nat.eqb k 0) eqn:Hz.
  - apply wp_bind, wp_bind. eapply wp_pop; [apply H3, Hl2|].
    intros σ4 H4 Hl4. do 2 apply wp_ret.
    apply (HQ σ4); [|done|].
    + eapply extends_off_fresh; [exact H13 | exact H4 | done].
    + intros σ5 H05 H5. eapply reify_dict_at; [by apply H5|].
      apply (drel_reify_mono n n σ0); [lia | exact H05 |].
      by apply drel_remove.
  - apply wp_bind. do 2 apply wp_ret.
    apply (HQ σ3 H13); [done|].
    intros σ5 H05 H5. eapply reify_dict_at; [apply H5; [done|apply H3, Hl2]|].
    by apply (drel_reify_mono n n σ0); [lia | exact H05 |].
Qed.

Lemma wp_clean_model_map n σ0 σ r v Q :
  extends σ0 σ →
  Store.reify n σ0 r = Some v →
  (∀ σ', extends σ σ' →
     match Weave._clean_model_map_information v with
     | Ok mmi =>
         ∀ l, length σ ≤ l →
           (∀ σ'', extends σ0 σ'' → extends_from (length σ) σ' σ'' →
              Store.reify (S (S n)) σ'' (Store.RObj l) = Some (VDict mmi)) →
           Q (Ok l) σ'
     | Raise e => Q (Raise e) σ'
     end) →
  wp (Store._clean_model_map_information r) σ Q.
Proof.
  intros Hext Hr HQ.
  unfold Store._clean_model_map_information, Store.new_dict.
  unfold Weave._clean_model_map_information in HQ.
  apply wp_bind. eapply wp_truthy; [exact Hext | exact Hr |].
  destruct (truthy v) eqn:Ht; cbn [negb] in *.
  2:{ apply wp_alloc. intros σ1 H1 Hl1. apply (HQ σ1 H1); [done|].
      intros σ2 _ H2. eapply reify_dict_at; [|constructor].
      by apply H2. }
  apply wp_bind. eapply wp_dict_items; [exact Hext | exact Hr |].
  destruct (dict_items v) as [m|e] eqn:Hm; cbn [mbind result_bind] in HQ.
  2:{ apply (HQ σ), extends_refl. }
  intros ds Hds. fold (non_null m) in HQ.
  set (cs := dict_comp (λ _ v, negb (Store.is_none v)) ds).
  assert (drel (λ r v, Store.reify n σ0 r = Some v) cs (non_null m)) as Hcs.
  { apply (drel_comp _ (λ r, negb (Store.is_none r)) (λ v, negb (is_none v)));
      [|done].
    intros r' v' Hr'. by rewrite (reify_is_none _ _ _ _ Hr'). }
  apply wp_bind, wp_alloc. intros σ1 H1 Hl1.
  pose proof (lookup_lt_Some _ _ _ Hl1) as Hlt1.
  pose proof (extends_trans _ _ _ Hext H1) as H01.
  apply wp_bind. eapply wp_mem; [exact Hl1|].
  rewrite (drel_mem _ _ _ _ Hcs).
  destruct (dict_mem "model_map_value" (non_null m)) eqn:Hmem.
  2:{ apply wp_bind. do 2 apply wp_ret. apply (HQ σ1 H1); [done|].
      intros σ2 H02 H2. eapply reify_dict_at; [by apply H2|].
      by apply (drel_reify_mono n (S n) σ0); [lia | exact H02 |]. }
  apply wp_bind, wp_bind. eapply wp_getitem; [exact Hl1|].
  unfold dict_getitem in HQ.
  pose proof (drel_get _ "model_map_value" _ _ Hcs) as Hg.
  unfold dict_mem in Hmem.
  destruct (dict_get "model_map_value" (non_null m)) as [vv|]; [|done].
  inversion Hg as [rv vv' Hrv Hgs|]; subst vv'.
  cbn [mbind result_bind] in HQ.
  apply wp_bind. eapply wp_dict_items; [exact H01 | exact Hrv |].
  destruct (dict_items vv) as [sub|e] eqn:Hsub; cbn [mbind result_bind] in HQ.
  2:{ apply (HQ σ1 H1). }
  intros dsub Hdsub. fold (non_null sub) in HQ.
  rewrite dict_get_set in HQ. cbn [mbind result_bind dict_items] in HQ.
  set (A := dict_comp (λ _ v, negb (Store.is_none v)) dsub).
  assert (drel (λ r v, Store.reify n σ0 r = Some v) A (non_null sub)) as HA.
  { apply (drel_comp _ (λ r, negb (Store.is_none r)) (λ v, negb (is_none v)));
      [|done].
    intros r' v' Hr'. by rewrite (reify_is_none _ _ _ _ Hr'). }
  apply wp_bind, wp_alloc. intros σ2 H2 Hl2.
  apply wp_bind. eapply wp_setitem; [apply H2, Hl1|].
  intros σ3 H3 Hl3.
  apply wp_bind. eapply wp_getitem; [exact Hl3|].
  rewrite dict_get_set.
  assert (length σ1 ≠ length σ) as Hne1 by lia.
  apply wp_bind. eapply wp_dict_items_at; [by apply H3|].
  set (B := dict_comp (λ k _, negb (contains "support" k)) A).
  assert (drel (λ r v, Store.reify n σ0 r = Some v) B
            (dict_comp (λ k _, negb (contains "support" k)) (non_null sub)))
    as HB.
  { unfold B. rewrite !dict_comp_keys. by apply drel_filter_keys. }
  apply wp_bind, wp_alloc. intros σ4 H4 Hl4.
  pose proof (lookup_lt_Some _ _ _ Hl2) as Hlt2.
  pose proof (extends_length _ _ H2) as Hle2.
  eapply wp_setitem; [apply H4, Hl3|].
  intros σ5 H5 Hl5. apply wp_ret.
  assert (length σ3 ≠ length σ) as Hne3.
  { apply H3 in Hl2; [|done]. apply lookup_lt_Some in Hl2. lia. }
  apply (HQ σ5); [|done|].
  - eapply extends_off_fresh; [|exact H5|done].
    eapply extends_trans; [|exact H4].
    eapply extends_off_fresh; [|exact H3|done].
    by eapply extends_trans.
  - intros σ6 H06 H6. eapply reify_dict_at; [by apply H6|].
    assert (σ6 !! length σ1 = Some (Store.ODict A)) as HlA.
    { apply H6; [lia|]. apply H5; [done|]. apply H4. by apply H3. }
    assert (σ6 !! length σ3 = Some (Store.ODict B)) as HlB.
    { apply H6; [|by apply H5].
      pose proof (extends_length _ _ H1).
      apply lookup_lt_Some in Hl3. lia. }
    apply drel_set; [apply drel_set|].
    + by apply (drel_reify_mono n (S n) σ0); [lia | exact H06 |].
    + eapply reify_dict_at; [exact HlA|].
      by apply (drel_reify_mono n n σ0); [lia | exact H06 |].
    + eapply reify_dict_at; [exact HlB|].
      by apply (drel_reify_mono n n σ0); [lia | exact H06 |].
Qed.

(** ** Building the record on the store *)

Lemma reify_RNone n σ : Store.reify n σ Store.RNone = Some VNone.
Proof. by destruct n. Qed.

Lemma wp_as_dict_at l d σ Q :
  σ !! l = Some (Store.ODict d) →
  Q (Ok (Some d)) σ →
  wp (Store.as_dict (Store.RObj l)) σ Q.
Proof.
  intros Hl H. exists (Ok (Some d)), σ. split; [|done].
  unfold Store.as_dict, Store.load, mbind, Store.M_bind. by rewrite Hl.
Qed.

Lemma all_str_mapM n σ ds d :
  drel (λ r v, Store.reify n σ r = Some v) ds d →
  Store.all_str ds =
  match mapM (λ kv, pair (fst kv) <$> Weave.as_str (snd kv)) d with
  | Some _ => true
  | None => false
  end.
Proof.
  induction 1 as [|[k r] [k' v] ds d [Hk Hr] _ IH]; [done|].
  simpl in *. rewrite IH, (reify_as_str _ _ _ _ Hr).
  destruct (Weave.as_str v); simpl; [|done].
  by destruct (mapM _ d).
Qed.

Lemma wp_new_WeaveLogData n σ0 σ l ds d ct ctv es esv ei eiv rr rv Q :
  extends σ0 σ →
  σ !! l = Some (Store.ODict ds) →
  Store.reify n σ0 ct = Some ctv →
  Store.reify n σ0 es = Some esv →
  Store.reify n σ0 ei = Some eiv →
  Store.reify n σ0 rr = Some rv →
  (∀ σ', extends σ σ' →
     match Weave.new_WeaveLogData (VDict d) ctv esv eiv rv with
     | Ok rec =>
         ∀ x, σ' !! Store.standard_logging_data x = Some (Store.ODict ds) →
              Store.call_type x = Weave.call_type rec →
              Store.error_str x = Weave.error_str rec →
              Store.reify (S n) σ' (Store.RObj (Store.error_information x))
                ≫= Weave.as_dict_str = Some (Weave.error_information rec) →
              Store.reify_dict (S n) σ' (Store.response x)
                = Some (Weave.response rec) →
              Weave.standard_logging_data rec = d →
              Q (Ok x) σ'
     | Raise e => Q (Raise e) σ'
     end) →
  wp (Store.new_WeaveLogData (Store.RObj l) ct es ei rr) σ Q.
Proof.
  intros Hext Hl Hct Hes Hei Hrr HQ.
  unfold Store.new_WeaveLogData, Store.new_dict.
  unfold Weave.new_WeaveLogData, Weave.as_dict_str in HQ.
  cbn [Weave.as_dict] in HQ.
  apply wp_bind. eapply wp_as_dict_at; [exact Hl|].
  apply wp_bind. eapply wp_as_dict; [exact Hext | exact Hei |].
  rewrite (reify_as_str _ _ _ _ Hct), (reify_as_str _ _ _ _ Hes).
  destruct (Weave.as_dict eiv) as [dei|]; cbn [mbind option_bind] in HQ.
  2:{ apply wp_bind. eapply wp_as_dict; [exact Hext | exact Hrr |].
      assert (Q (Raise (ValidationError "WeaveLogData")) σ) as HR.
      { specialize (HQ σ (extends_refl _)).
        by destruct (Weave.as_str ctv), (Weave.as_str esv). }
      destruct (Weave.as_dict rv); [intros dsr _|];
        destruct (Weave.as_str ctv), (Weave.as_str esv); by apply wp_raise. }
  intros dsei Hdsei.
  apply wp_bind. eapply wp_as_dict; [exact Hext | exact Hrr |].
  rewrite (all_str_mapM _ _ _ _ Hdsei).
  destruct (Weave.as_dict rv) as [dr|].
  2:{ assert (Q (Raise (ValidationError "WeaveLogData")) σ) as HR.
      { specialize (HQ σ (extends_refl _)).
        destruct (Weave.as_str ctv), (Weave.as_str esv); try done.
        by destruct (mapM _ dei). }
      destruct (Weave.as_str ctv), (Weave.as_str esv); by apply wp_raise. }
  intros dsr Hdsr.
  destruct (Weave.as_str ctv) as [sct|];
    [|apply wp_raise; apply (HQ σ), extends_refl].
  destruct (Weave.as_str esv) as [ses|];
    [|apply wp_raise; apply (HQ σ), extends_refl].
  destruct (mapM _ dei) as [sei|] eqn:Hsei;
    [|apply wp_raise; apply (HQ σ), extends_refl].
  apply wp_bind, wp_alloc. intros σ1 H1 Hl1.
  apply wp_bind, wp_alloc. intros σ2 H2 Hl2.
  apply wp_bind, wp_alloc. intros σ3 H3 Hl3.
  apply wp_ret.
  pose proof (extends_trans _ _ _ H1 (extends_trans _ _ _ H2 H3)) as H13.
  pose proof (extends_trans _ _ _ Hext H13) as H03.
  apply (HQ σ3 H13);
    cbn [Store.standard_logging_data Store.call_type Store.error_str
         Store.error_information Store.response
         Weave.standard_logging_data Weave.call_type Weave.error_str
         Weave.error_information Weave.response].
  - apply H3, H2, Hl1.
  - done.
  - done.
  - erewrite reify_dict_at; [| apply H3, Hl2 |].
    + simpl. exact Hsei.
    + by apply (drel_reify_mono n n σ0); [lia | exact H03 |].
  - unfold Store.reify_dict. erewrite reify_dict_at; [done | exact Hl3 |].
    by apply (drel_reify_mono n n σ0); [lia | exact H03 |].
  - done.
Qed.

(** ** [_prepare_data] on the store *)

Lemma reify_dict_inv n σ l raw :
  Store.reify_dict n σ l = Some raw →
  ∃ n' ds, n = S n' ∧ σ !! l = Some (Store.ODict ds) ∧
    drel (λ r v, Store.reify n' σ r = Some v) ds raw.
Proof.
  unfold Store.reify_dict. intros (v & Hv & Hd)%bind_Some.
  apply reify_cases in Hv
    as (n' & -> & [(? & ? & _ & -> & _) | (ds & d & Hl & -> & H)]); [done|].
  injection Hd as <-. by exists n', ds.
Qed.

Ltac norm_keys :=
  repeat first
    [ rewrite dict_comp_keys
    | rewrite dict_remove_keys
    | rewrite filter_keys_twice
    | rewrite filter_keys_app
    | rewrite filter_keys_cons
    | rewrite filter_keys_nil
    | rewrite dict_set_dropped_nil by reflexivity
    | rewrite dict_set_dropped by reflexivity
    | rewrite <- app_assoc
    | progress cbn [negb andb String.eqb Ascii.eqb Bool.eqb app] ].

Ltac norm_keys_in H :=
  repeat first
    [ rewrite dict_comp_keys in H
    | rewrite dict_remove_keys in H
    | rewrite filter_keys_twice in H
    | rewrite filter_keys_app in H
    | rewrite filter_keys_cons in H
    | rewrite filter_keys_nil in H
    | rewrite dict_set_dropped_nil in H by reflexivity
    | rewrite dict_set_dropped in H by reflexivity
    | rewrite <- app_assoc in H
    | progress cbn [negb andb String.eqb Ascii.eqb Bool.eqb app] in H ].

Lemma prepare_data_wp n σ0 kwargs raw :
  Store.reify_dict n σ0 kwargs = Some raw →
  wp (Store._prepare_data kwargs) σ0
    (λ r σ', extends σ0 σ' ∧
             same_outcome (S (S n)) r σ' (Weave._prepare_data raw)).
Proof.
  intros (n1 & kws & -> & Hlk & Hkws)%reify_dict_inv.
  unfold Store._prepare_data, Weave._prepare_data.
  rewrite prepare_fields_eq.
  apply wp_bind. eapply wp_get; [exact Hlk|].
  unfold Store._remove_keys_with_tokens, Store._remove_timing_keys,
    Store.new_dict.
  apply wp_bind, wp_bind.
  eapply (wp_dict_items σ0 σ0 (extends_refl _) n1).
  { apply (drel_get_default (λ r v, Store.reify n1 σ0 r = Some v)
             _ _ _ Store.RNone VNone Hkws), reify_RNone. }
  destruct (dict_items _) as [d|e]; cbn [mbind result_bind];
    [|split; [apply extends_refl | done]].
  intros ds Hds.
  apply wp_alloc. intros σ1 H1 Hl1.
  apply wp_bind. eapply wp_get; [exact Hl1|].
  apply wp_bind. eapply wp_pop; [exact Hl1|]. intros σ2 H2 Hl2.
  apply wp_bind, wp_bind. eapply wp_dict_items_at; [exact Hl2|].
  apply wp_alloc. intros σ3 H3 Hl3.
  assert (extends σ0 σ3) as H03.
  { eapply extends_trans; [|exact H3].
    eapply extends_off_fresh; [exact H1 | exact H2 | done]. }
  pose proof (extends_length _ _ H03) as Hlen3.
  pose proof (lookup_lt_Some _ _ _ Hl3) as Hlt3.
  apply wp_bind. eapply wp_pop; [exact Hl3|]. intros σ4 H4 Hl4.
  rewrite !dict_comp_keys, !dict_remove_keys, !filter_keys_twice.
  rewrite !dict_get_default_kept by reflexivity.
  pose proof (lookup_lt_Some _ _ _ Hl2) as Hlt2.
  pose proof (lookup_lt_Some _ _ _ Hl4) as Hlt4.
  assert (extends σ0 σ4) as H04.
  { eapply extends_off_fresh; [exact H03 | exact H4 | lia]. }
  set (R0 := λ r v, Store.reify n1 σ0 r = Some v) in *.
  apply wp_bind. eapply (wp_redact n1 σ0 σ4); [exact H04 | |].
  { apply (drel_get_default R0 _ _ _ Store.RNone VNone Hds), reify_RNone. }
  intros σ5 H5.
  pose proof (extends_trans _ _ _ H04 H5) as H05.
  destruct (Weave._redact_and_clean_metadata _) as [md|e];
    cbn [mbind result_bind]; [|done].
  intros lmd Hlmd Hmd.
  apply wp_bind. eapply wp_setitem; [apply H5, Hl4|]. intros σ6 H6 Hl6.
  apply wp_bind. eapply wp_pop; [exact Hl6|]. intros σ7 H7 Hl7.
  apply wp_bind. eapply wp_pop; [exact Hl7|]. intros σ8 H8 Hl8.
  norm_keys.
  rewrite dict_get_default_app, dict_get_default_kept by reflexivity.
  change (dict_get_default _ [_] Store.RNone) with Store.RNone.
  pose proof (lookup_lt_Some _ _ _ Hl8) as Hlt8.
  assert (extends_off (length σ2) σ5 σ8) as H58.
  { eauto using extends_off_trans. }
  assert (extends σ0 σ8) as H08.
  { eapply extends_off_fresh; [exact H05 | exact H58 | lia]. }
  apply wp_bind. eapply (wp_clean_model_map n1 σ0 σ8); [exact H08 | |].
  { apply (drel_get_default R0 _ _ _ Store.RNone VNone Hds), reify_RNone. }
  intros σ9 H9.
  pose proof (extends_trans _ _ _ H08 H9) as H09.
  destruct (Weave._clean_model_map_information _) as [mmi|e];
    cbn [mbind result_bind]; [|done].
  intros lmmi Hlmmi Hmmi.
  apply wp_bind. eapply wp_setitem; [apply H9, Hl8|]. intros σ10 H10 Hl10.
  apply wp_bind. eapply wp_pop; [exact Hl10|]. intros σ11 H11 Hl11.
  apply wp_bind. eapply wp_pop; [exact Hl11|]. intros σ12 H12 Hl12.
  apply wp_bind. eapply wp_pop; [exact Hl12|]. intros σ13 H13 Hl13.
  apply wp_bind. eapply wp_pop; [exact Hl13|]. intros σ14 H14 Hl14.
  apply wp_bind. eapply wp_get; [exact Hl14|].
  norm_keys. norm_keys_in Hl14.
  rewrite !dict_get_default_app.
  rewrite (dict_get_default_kept _ "error_str") by reflexivity.
  rewrite (dict_get_default_kept _ "error_information") by reflexivity.
  rewrite (dict_get_default_kept _ "response") by reflexivity.
  change (dict_get_default _ [_; _] Store.RNone) with Store.RNone.
  cbn [Weave.f_standard_logging_data Weave.f_call_type Weave.f_error_str
       Weave.f_error_information Weave.f_response].
  pose proof (lookup_lt_Some _ _ _ Hl14) as Hlt14.
  assert (extends_off (length σ2) σ9 σ14) as H914.
  { eauto 10 using extends_off_trans. }
  assert (extends σ0 σ14) as H014.
  { eapply extends_off_fresh; [exact H09 | exact H914 | lia]. }
  eapply (wp_new_WeaveLogData n1 σ0 σ14 _ _
            (filter_keys kept d ++
             [("metadata", VDict md); ("model_map_information", VDict mmi)]));
    [exact H014 | exact Hl14 | ..].
  1-4: apply (drel_get_default R0 _ _ _ Store.RNone VNone Hds), reify_RNone.
  intros σ15 H15.
  pose proof (extends_trans _ _ _ H014 H15) as H015.
  destruct (Weave.new_WeaveLogData _ _ _ _ _) as [rec|e]; [|done].
  intros x Hx Hct Hes Hei Hresp Hsld. split; [done|].
  assert (extends_off (length σ2) σ9 σ15) as H915.
  { eapply extends_off_trans; [exact H914|]. by apply extends_extends_off. }
  assert (extends_off (length σ2) σ5 σ15) as H515.
  { eapply extends_off_trans; [exact H58|].
    eapply extends_off_trans; [|exact H915]. by apply extends_extends_off. }
  assert (Store.reify (S (S n1)) σ15 (Store.RObj lmd) = Some (VDict md))
    as Hmd'.
  { eapply reify_mono; [| apply extends_refl | apply (Hmd σ15 H015)]; [lia|].
    eapply extends_off_from; [exact H515 | lia]. }
  assert (Store.reify (S (S n1)) σ15 (Store.RObj lmmi) = Some (VDict mmi))
    as Hmmi'.
  { apply (Hmmi σ15 H015). eapply extends_off_from; [exact H915 | lia]. }
  assert (Store.reify (S (S (S n1))) σ15
            (Store.RObj (Store.standard_logging_data x))
          = Some (VDict (Weave.standard_logging_data rec))) as Hd.
  { rewrite Hsld. eapply reify_dict_at; [exact Hx|].
      apply drel_app; [|by repeat constructor].
      erewrite filter_keys_ext; [apply drel_filter_keys|].
      - apply (drel_reify_mono n1 (S (S n1)) σ0 σ15 _ _ ltac:(lia) H015 Hds).
      - intros k. unfold kept, dropped_keys, Weave.timing_keys.
        cbn [existsb]. btauto. }
  unfold same_outcome, Store.reify_log_data, Store.reify_dict. rewrite Hd.
  apply bind_Some in Hei as (vei & Hvei & Hei).
  rewrite (reify_mono (S n1) (S (S (S n1))) _ _ _ _ ltac:(lia)
             (extends_refl _) Hvei).
  unfold Store.reify_dict in Hresp.
  apply bind_Some in Hresp as (vr & Hvr & Hresp).
  rewrite (reify_mono (S n1) (S (S (S n1))) _ _ _ _ ltac:(lia)
             (extends_refl _) Hvr).
  cbn [mbind option_bind Weave.as_dict]. rewrite Hei, Hresp.
  cbn [mbind option_bind]. destruct rec. simpl in *. by subst.
Qed.

(** Two runs on inputs of the same value, in whatever stores, end alike:
    with the same exception, or with records of the same value. *)
Lemma prepare_data_same_input n1 n2 σ1 σ2 k1 k2 raw :
  Store.reify_dict n1 σ1 k1 = Some raw →
  Store.reify_dict n2 σ2 k2 = Some raw →
  ∃ r1 σ1' r2 σ2',
    Store._prepare_data k1 σ1 = Some (r1, σ1') ∧
    Store._prepare_data k2 σ2 = Some (r2, σ2') ∧
    match r1, r2 with
    | Ok x1, Ok x2 =>
        ∃ rec, Store.reify_log_data (S (S n1)) σ1' x1 = Some rec ∧
               Store.reify_log_data (S (S n2)) σ2' x2 = Some rec
    | Raise e1, Raise e2 => e1 = e2
    | _, _ => False
    end.
Proof.
  intros (r1 & σ1' & Hrun1 & _ & Ho1)%prepare_data_wp
         (r2 & σ2' & Hrun2 & _ & Ho2)%prepare_data_wp.
  exists r1, σ1', r2, σ2'. do 2 (split; [done|]).
  unfold same_outcome in *.
  destruct r1, r2, (Weave._prepare_data raw) as [rec|e']; try done.
  - by exists rec.
  - congruence.
Qed.

(** C9.  Run on a store in which [kwargs] denotes the mapping [raw],
    [_prepare_data] ends, with every object of that store unchanged: the
    store it leaves is the given one followed by new objects.  Its outcome
    is the outcome of the function on values at [raw]: the same exception,
    or a record that denotes the same record.  So the outcome depends on
    the value of the input alone, and not on the store or on the identity
    of the objects. *)
Theorem prepare_data_pure n σ kwargs raw :
  Store.reify_dict n σ kwargs = Some raw →
  ∃ r σ',
    Store._prepare_data kwargs σ = Some (r, σ') ∧
    σ `prefix_of` σ' ∧
    Store.reify_dict n σ' kwargs = Some raw ∧
    same_outcome (S (S n)) r σ' (Weave._prepare_data raw).
Proof.
  intros Hk. destruct (prepare_data_wp _ _ _ _ Hk) as (r & σ' & Hrun & He & Hr).
  exists r, σ'. split; [done|]. split; [by apply extends_prefix|].
  split; [|done]. unfold Store.reify_dict in *.
  apply bind_Some in Hk as (v & Hv & Hd).
  by rewrite (reify_mono _ n _ _ _ _ (le_n _) He Hv).
Qed.


Lemma prepare_data_pure_witness :
  Store.reify_dict 4 Store.scenario 5 = Some Store.scenario_value ∧
  ∃ r σ',
    Store._prepare_data 5 Store.scenario = Some (r, σ') ∧
    Store.scenario `prefix_of` σ' ∧
    Store.reify_dict 4 σ' 5 = Some Store.scenario_value ∧
    same_outcome 6 r σ' (Weave._prepare_data Store.scenario_value).
Proof.
  split; [reflexivity|].
  apply (prepare_data_pure 4 Store.scenario 5 Store.scenario_value).
  reflexivity.
Defined.

(** ** Further properties: credentials *)

Lemma or_str_None a b :
  or_str a b = None ↔ (a = None ∨ a = Some "") ∧ b = None.
Proof.
  destruct a as [s|]; simpl.
  - destruct (String.eqb_spec s "") as [->|Hs].
    + split; [by auto | by intros [_ ->]].
    + split; [done|]. intros [[?|[= ?]] _]; done.
  - split; [by auto | by intros [_ ->]].
Qed.

(** X1.  [_get_credentials_from_env] raises the exception about the API
    key exactly when the argument [wandb_api_key] is [None] or empty and the
    environment has no [WANDB_API_KEY]: an empty argument counts as absent,
    while a key set in the environment counts as present, whatever it is. *)
Theorem credentials_api_key_error getenv k e p :
  Weave._get_credentials_from_env getenv k e p =
    Raise (Exception
      "W&B API Key is not set. Visit https://wandb.ai/authorize to get one.")
  ↔ (k = None ∨ k = Some "") ∧ getenv "WANDB_API_KEY" = None.
Proof.
  rewrite <- or_str_None. unfold Weave._get_credentials_from_env. cbv zeta.
  destruct (or_str k _) as [k'|]; [|done].
  split; [|done].
  destruct (or_str p _) as [p'|]; [|done].
  by destruct (or_str e _).
Qed.

(** X2.  It raises the exception about the project exactly when an API key
    is found and the argument [weave_project] is [None] or empty and the
    environment has no [WANDB_PROJECT]: the key is checked first. *)
Theorem credentials_project_error getenv k e p :
  Weave._get_credentials_from_env getenv k e p =
    Raise (Exception
      "Please provide a project name using the `weave_project` parameter or the `WANDB_PROJECT` environment variable.")
  ↔ ¬ ((k = None ∨ k = Some "") ∧ getenv "WANDB_API_KEY" = None) ∧
    (p = None ∨ p = Some "") ∧ getenv "WANDB_PROJECT" = None.
Proof.
  rewrite <- !or_str_None. unfold Weave._get_credentials_from_env. cbv zeta.
  destruct (or_str k _) as [k'|].
  - destruct (or_str p _) as [p'|].
    + split; [by destruct (or_str e _) | by intros [_ ?]].
    + split; [done | done].
  - split; [done | by intros [H _]].
Qed.

(** X3.  Arguments that are not empty are the credentials, whatever the
    environment holds. *)
Theorem credentials_arguments_first getenv k e p :
  k ≠ "" → e ≠ "" → p ≠ "" →
  Weave._get_credentials_from_env getenv (Some k) (Some e) (Some p) =
  Ok {| Weave.wandb_api_key := k; Weave.wandb_entity := e;
        Weave.weave_project := p |}.
Proof.
  intros Hk He Hp. apply credentials_resolved; simpl.
  - by destruct (String.eqb_spec k "").
  - by destruct (String.eqb_spec e "").
  - by destruct (String.eqb_spec p "").
Qed.

Lemma credentials_arguments_first_witness :
  "key" ≠ "" ∧ "team" ≠ "" ∧ "proj" ≠ "" ∧
  Weave._get_credentials_from_env (λ _, Some "from the environment")
    (Some "key") (Some "team") (Some "proj") =
  Ok {| Weave.wandb_api_key := "key"; Weave.wandb_entity := "team";
        Weave.weave_project := "proj" |}.
Proof.
  do 3 (split; [discriminate|]).
  apply (credentials_arguments_first (λ _, Some "from the environment")
           "key" "team" "proj"); discriminate.
Defined.

(** X4.  Arguments that are [None] or empty give way to the environment,
    and what the environment holds is taken as it is, the empty string
    too. *)
Theorem credentials_environment getenv k e p k' e' p' :
  k = None ∨ k = Some "" →
  e = None ∨ e = Some "" →
  p = None ∨ p = Some "" →
  getenv "WANDB_API_KEY" = Some k' →
  getenv "WANDB_ENTITY" = Some e' →
  getenv "WANDB_PROJECT" = Some p' →
  Weave._get_credentials_from_env getenv k e p =
  Ok {| Weave.wandb_api_key := k'; Weave.wandb_entity := e';
        Weave.weave_project := p' |}.
Proof.
  intros Hk He Hp Ek Ee Ep. apply credentials_resolved.
  - rewrite Ek. by destruct Hk as [->| ->].
  - rewrite Ee. by destruct He as [->| ->].
  - rewrite Ep. by destruct Hp as [->| ->].
Qed.

Lemma credentials_environment_witness :
  ∃ getenv,
    getenv "WANDB_API_KEY" = Some "" ∧
    getenv "WANDB_ENTITY" = Some "team" ∧
    getenv "WANDB_PROJECT" = Some "proj" ∧
    Weave._get_credentials_from_env getenv None (Some "") None =
    Ok {| Weave.wandb_api_key := ""; Weave.wandb_entity := "team";
          Weave.weave_project := "proj" |}.
Proof.
  exists (λ x, if x =? "WANDB_API_KEY" then Some ""
               else if x =? "WANDB_ENTITY" then Some "team"
               else Some "proj").
  do 3 (split; [reflexivity|]).
  apply (credentials_environment _ None (Some "") None "" "team" "proj");
    auto.
Defined.

(** ** Further properties: the sanitised mapping *)

(** X5.  The mapping of a record lists the entries of the input that no
    exclusion rule matches, in the order of the input, then [metadata] and
    last [model_map_information], which hold what the two cleaning
    functions return for the input's values under these keys. *)
Theorem prepare_data_mapping_order kwargs rec :
  Weave._prepare_data kwargs = Ok rec →
  ∃ d md mmi,
    dict_get "standard_logging_data" kwargs = Some (VDict d) ∧
    Weave._redact_and_clean_metadata (dict_get_default "metadata" d VNone)
      = Ok md ∧
    Weave._clean_model_map_information
      (dict_get_default "model_map_information" d VNone) = Ok mmi ∧
    Weave.standard_logging_data rec =
      List.filter (λ kv, kept (fst kv)) d ++
      [("metadata", VDict md); ("model_map_information", VDict mmi)].
Proof.
  intros (d & md & mmi & Hd & Hmd & Hmmi & Hs & _)%prepare_data_inv.
  by exists d, md, mmi.
Qed.

Lemma prepare_data_mapping_order_witness :
  Weave._prepare_data Weave.failed_call = Ok failed_call_record ∧
  ∃ d md mmi,
    dict_get "standard_logging_data" Weave.failed_call = Some (VDict d) ∧
    Weave._redact_and_clean_metadata (dict_get_default "metadata" d VNone)
      = Ok md ∧
    Weave._clean_model_map_information
      (dict_get_default "model_map_information" d VNone) = Ok mmi ∧
    Weave.standard_logging_data failed_call_record =
      List.filter (λ kv, kept (fst kv)) d ++
      [("metadata", VDict md); ("model_map_information", VDict mmi)].
Proof.
  split; [reflexivity|].
  apply (prepare_data_mapping_order Weave.failed_call). reflexivity.
Defined.

(** X6.  A key that no rule matches passes through: the record's mapping
    holds under it what the input holds, value unchanged, or nothing when
    the input has no such key. *)
Theorem prepare_data_pass_through kwargs rec d k :
  Weave._prepare_data kwargs = Ok rec →
  dict_get "standard_logging_data" kwargs = Some (VDict d) →
  contains "token" k = false →
  ¬ In k dropped_keys →
  dict_get k (Weave.standard_logging_data rec) = dict_get k d.
Proof.
  intros (d' & md & mmi & Hd & _ & _ & -> & _)%prepare_data_inv Hd' Ht Hk.
  rewrite Hd in Hd'. injection Hd' as ->.
  assert (kept k = true) as Hkept by (by apply kept_spec).
  rewrite dict_get_app, (dict_get_filter_keys kept), Hkept.
  destruct (dict_get k d); [done|].
  rewrite !dict_get_cons. cbn [fst snd].
  destruct (String.eqb_spec "metadata" k) as [<-|];
    [destruct Hk; simpl; tauto|].
  destruct (String.eqb_spec "model_map_information" k) as [<-|];
    [destruct Hk; simpl; tauto | done].
Qed.

Lemma prepare_data_pass_through_witness :
  Weave._prepare_data Weave.failed_call = Ok failed_call_record ∧
  ∃ d,
    dict_get "standard_logging_data" Weave.failed_call = Some (VDict d) ∧
    contains "token" "response" = false ∧
    ¬ In "response" dropped_keys ∧
    dict_get "response" (Weave.standard_logging_data failed_call_record)
      = dict_get "response" d.
Proof.
  split; [reflexivity|]. eexists. split; [reflexivity|].
  assert (¬ In "response" dropped_keys) as H.
  { simpl. intros H. repeat destruct H as [H|H]; discriminate || done. }
  split; [reflexivity|]. split; [exact H|].
  apply (prepare_data_pass_through Weave.failed_call failed_call_record
           _ "response"); [reflexivity | reflexivity | reflexivity | exact H].
Defined.

(** X7.  The keys [hidden_params], [response_cost_failure_debug_info] and
    [guardrail_information] never reach the record's mapping. *)
Theorem prepare_data_discards kwargs rec k :
  Weave._prepare_data kwargs = Ok rec →
  In k ["hidden_params"; "response_cost_failure_debug_info";
        "guardrail_information"] →
  dict_get k (Weave.standard_logging_data rec) = None.
Proof.
  intros (d & md & mmi & _ & _ & _ & -> & _)%prepare_data_inv Hk.
  rewrite dict_get_app, (dict_get_filter_keys kept).
  simpl in Hk. by destruct Hk as [<-|[<-|[<-|[]]]].
Qed.

Lemma prepare_data_discards_witness :
  Weave._prepare_data Weave.failed_call = Ok failed_call_record ∧
  In "hidden_params" ["hidden_params"; "response_cost_failure_debug_info";
                      "guardrail_information"] ∧
  dict_get "hidden_params" (Weave.standard_logging_data failed_call_record)
    = None.
Proof.
  split; [reflexivity|]. split; [by left|].
  apply (prepare_data_discards Weave.failed_call failed_call_record);
    [reflexivity | by left].
Defined.

(** X8.  [_prepare_data] returns a record exactly when the input holds a
    dict under [standard_logging_data], both cleaning functions return, and
    that dict holds a string under [call_type] and under [error_str], a
    dict of strings under [error_information] and a dict under [response];
    the record is then made of these values. *)
Theorem prepare_data_returns kwargs rec :
  Weave._prepare_data kwargs = Ok rec ↔
  ∃ d md mmi ei,
    dict_get "standard_logging_data" kwargs = Some (VDict d) ∧
    Weave._redact_and_clean_metadata (dict_get_default "metadata" d VNone)
      = Ok md ∧
    Weave._clean_model_map_information
      (dict_get_default "model_map_information" d VNone) = Ok mmi ∧
    dict_get "call_type" d = Some (VStr (Weave.call_type rec)) ∧
    dict_get "error_str" d = Some (VStr (Weave.error_str rec)) ∧
    dict_get "error_information" d = Some (VDict ei) ∧
    mapM (λ kv, pair (fst kv) <$> Weave.as_str (snd kv)) ei
      = Some (Weave.error_information rec) ∧
    dict_get "response" d = Some (VDict (Weave.response rec)) ∧
    Weave.standard_logging_data rec =
      List.filter (λ kv, kept (fst kv)) d ++
      [("metadata", VDict md); ("model_map_information", VDict mmi)].
Proof.
  split.
  - intros H. pose proof (prepare_data_needs_error_and_response _ _ H)
      as (d & ei & Hd & Hes & Hei & Hr).
    apply prepare_data_inv in H
      as (d' & md & mmi & Hd' & Hmd & Hmmi & Hs & Hct & _ & Hei' & _).
    rewrite Hd in Hd'. injection Hd' as <-.
    exists d, md, mmi, ei. repeat split; try done.
    + unfold dict_get_default in Hct.
      by destruct (dict_get "call_type" d) as [?|]; simpl in Hct; subst.
    + unfold dict_get_default in Hei'. by rewrite Hei in Hei'.
  - intros (d & md & mmi & ei & Hd & Hmd & Hmmi & Hct & Hes & Hei & Hm & Hr
            & Hs).
    unfold Weave._prepare_data. rewrite prepare_fields_eq.
    rewrite (dict_get_default_eq _ _ _ _ Hd). cbn [dict_items mbind result_bind].
    rewrite Hmd, Hmmi. cbn [mbind result_bind].
    cbn [Weave.f_standard_logging_data Weave.f_call_type Weave.f_error_str
         Weave.f_error_information Weave.f_response].
    rewrite (dict_get_default_eq _ _ _ _ Hct), (dict_get_default_eq _ _ _ _ Hes),
      (dict_get_default_eq _ _ _ _ Hei), (dict_get_default_eq _ _ _ _ Hr).
    unfold Weave.new_WeaveLogData, Weave.as_dict_str.
    cbn [Weave.as_dict Weave.as_str mbind option_bind]. rewrite Hm.
    destruct rec. simpl in *. by subst.
Qed.

(** X9.  An exception of a cleaning function is the exception of
    [_prepare_data], that of the metadata first. *)
Theorem prepare_data_cleaning_error kwargs d e :
  dict_get "standard_logging_data" kwargs = Some (VDict d) →
  Weave._redact_and_clean_metadata (dict_get_default "metadata" d VNone)
    = Raise e ∨
  (is_ok (Weave._redact_and_clean_metadata
            (dict_get_default "metadata" d VNone)) = true ∧
   Weave._clean_model_map_information
     (dict_get_default "model_map_information" d VNone) = Raise e) →
  Weave._prepare_data kwargs = Raise e.
Proof.
  intros Hd H. unfold Weave._prepare_data. rewrite prepare_fields_eq.
  rewrite (dict_get_default_eq _ _ _ _ Hd). cbn [dict_items mbind result_bind].
  destruct H as [-> | [Hmd ->]]; [done|].
  by destruct (Weave._redact_and_clean_metadata _).
Qed.

Lemma prepare_data_cleaning_error_witness :
  dict_get "standard_logging_data"
    [("standard_logging_data", VDict [("metadata", VStr "m")])]
    = Some (VDict [("metadata", VStr "m")]) ∧
  Weave._prepare_data
    [("standard_logging_data", VDict [("metadata", VStr "m")])]
    = Raise (AttributeError "items").
Proof.
  split; [reflexivity|].
  apply (prepare_data_cleaning_error _ [("metadata", VStr "m")]);
    [reflexivity | left; reflexivity].
Defined.

(** ** Further properties: the two cleaning functions *)

Lemma dict_get_clean_entries_kept k v m :
  contains "_api_" k = false → is_none v = false →
  dict_get k m = Some v → dict_get k (clean_entries m) = Some v.
Proof.
  intros Hk Hv. unfold clean_entries, dict_comp.
  induction m as [|[k' v'] m IH]; [done|].
  rewrite dict_get_cons. simpl.
  destruct (String.eqb_spec k' k) as [->|Hne].
  - intros [= E]. subst v'. rewrite Hk. simpl. rewrite Hv. simpl.
    rewrite dict_get_cons. simpl. by rewrite String.eqb_refl.
  - intros H. destruct (contains "_api_" k'); simpl; [by apply IH|].
    destruct (is_none v'); simpl; [by apply IH|].
    rewrite dict_get_cons. simpl.
    destruct (String.eqb_spec k' k); [done | by apply IH].
Qed.

Lemma dict_get_non_null_kept k v m :
  is_none v = false →
  dict_get k m = Some v → dict_get k (non_null m) = Some v.
Proof.
  intros Hv. unfold non_null, dict_comp.
  induction m as [|[k' v'] m IH]; [done|].
  rewrite dict_get_cons. simpl.
  destruct (String.eqb_spec k' k) as [->|Hne].
  - intros [= E]. subst v'. rewrite Hv. simpl.
    rewrite dict_get_cons. simpl. by rewrite String.eqb_refl.
  - intros H. destruct (is_none v'); simpl; [by apply IH|].
    rewrite dict_get_cons. simpl.
    destruct (String.eqb_spec k' k); [done | by apply IH].
Qed.

Lemma truthy_dict_get k v m : dict_get k m = Some v → truthy (VDict m) = true.
Proof. by destruct m. Qed.

(** X10.  Both cleaning functions take every falsy value for a missing
    one, not [None] and the empty dict alone: zero, [False], the empty
    string and the empty list also give the empty dict. *)
Theorem cleaning_of_falsy v :
  truthy v = false →
  Weave._redact_and_clean_metadata v = Ok [] ∧
  Weave._clean_model_map_information v = Ok [].
Proof.
  intros Hv. unfold Weave._redact_and_clean_metadata,
    Weave._clean_model_map_information. by rewrite Hv.
Qed.

Lemma cleaning_of_falsy_witness :
  truthy (VInt 0) = false ∧
  Weave._redact_and_clean_metadata (VInt 0) = Ok [] ∧
  Weave._clean_model_map_information (VInt 0) = Ok [].
Proof. split; [reflexivity|]. apply (cleaning_of_falsy (VInt 0)). reflexivity.
Defined.

(** X11.  Both raise the [AttributeError] of [items] on a truthy value that
    is no dict: a non-empty string or list, [True], a number other than
    zero. *)
Theorem cleaning_of_non_dict v :
  truthy v = true → (∀ d, v ≠ VDict d) →
  Weave._redact_and_clean_metadata v = Raise (AttributeError "items") ∧
  Weave._clean_model_map_information v = Raise (AttributeError "items").
Proof.
  intros Hv Hd. unfold Weave._redact_and_clean_metadata,
    Weave._clean_model_map_information. rewrite Hv.
  destruct v; try done. by destruct (Hd d).
Qed.

Lemma cleaning_of_non_dict_witness :
  truthy (VStr "m") = true ∧ (∀ d, VStr "m" ≠ VDict d) ∧
  Weave._redact_and_clean_metadata (VStr "m")
    = Raise (AttributeError "items") ∧
  Weave._clean_model_map_information (VStr "m")
    = Raise (AttributeError "items").
Proof.
  assert (∀ d, VStr "m" ≠ VDict d) as H by (intros d; discriminate).
  split; [reflexivity|]. split; [exact H|].
  apply (cleaning_of_non_dict (VStr "m")); [reflexivity | exact H].
Defined.

(** X12.  The cleaning of metadata is shallow: an entry other than
    [applied_guardrails] whose key has no "_api_" and whose value is not
    [None] is kept with its value as it is, nested content included. *)
Theorem metadata_entry_kept m md k v :
  Weave._redact_and_clean_metadata (VDict m) = Ok md →
  dict_get k m = Some v →
  contains "_api_" k = false → v ≠ VNone → k ≠ "applied_guardrails" →
  dict_get k md = Some v.
Proof.
  intros H Hkv Hk Hv Hne.
  assert (is_none v = false) as Hv' by (by destruct v).
  pose proof (dict_get_clean_entries_kept _ _ _ Hk Hv' Hkv) as Hc.
  apply redact_inv in H as [[Ht _] | (m' & n & [= <-] & _ & ->)].
  - by rewrite (truthy_dict_get _ _ _ Hkv) in Ht.
  - destruct (Nat.eqb n 0); [|done].
    rewrite dict_remove_keys, dict_get_filter_keys.
    by destruct (String.eqb_spec k "applied_guardrails").
Qed.

Lemma metadata_entry_kept_witness :
  Weave._redact_and_clean_metadata
    (VDict [("user_api_key", VStr "sk-1");
            ("tags", VDict [("team_api_key", VStr "sk-2")])])
    = Ok [("tags", VDict [("team_api_key", VStr "sk-2")])] ∧
  dict_get "tags" [("tags", VDict [("team_api_key", VStr "sk-2")])]
    = Some (VDict [("team_api_key", VStr "sk-2")]).
Proof.
  split; [reflexivity|].
  apply (metadata_entry_kept
           [("user_api_key", VStr "sk-1");
            ("tags", VDict [("team_api_key", VStr "sk-2")])]
           _ "tags" (VDict [("team_api_key", VStr "sk-2")]));
    [reflexivity | reflexivity | reflexivity | discriminate | discriminate].
Defined.

(** X13.  [applied_guardrails] is dropped by length: a value of length
    zero, be it a list, a string or a dict, is removed, and one of positive
    length is kept as it is. *)
Theorem metadata_guardrails_by_length m md v n :
  Weave._redact_and_clean_metadata (VDict m) = Ok md →
  dict_get "applied_guardrails" m = Some v →
  py_len v = Ok n →
  dict_get "applied_guardrails" md = if Nat.eqb n 0 then None else Some v.
Proof.
  intros H Hkv Hn.
  assert (is_none v = false) as Hv' by (by destruct v).
  pose proof (dict_get_clean_entries_kept "applied_guardrails" _ _
                eq_refl Hv' Hkv) as Hc.
  apply redact_inv in H as [[Ht _] | (m' & n' & [= <-] & Hn' & ->)].
  - by rewrite (truthy_dict_get _ _ _ Hkv) in Ht.
  - rewrite (dict_get_default_eq _ _ _ _ Hc), Hn in Hn'. injection Hn' as <-.
    destruct (Nat.eqb n 0); [|done].
    by rewrite dict_remove_keys, dict_get_filter_keys.
Qed.

Lemma metadata_guardrails_by_length_witness :
  Weave._redact_and_clean_metadata
    (VDict [("note", VStr "hi"); ("applied_guardrails", VStr "")])
    = Ok [("note", VStr "hi")] ∧
  dict_get "applied_guardrails"
    [("note", VStr "hi"); ("applied_guardrails", VStr "")] = Some (VStr "") ∧
  py_len (VStr "") = Ok 0 ∧
  dict_get "applied_guardrails" [("note", VStr "hi")] = None.
Proof.
  do 3 (split; [reflexivity|]).
  apply (metadata_guardrails_by_length
           [("note", VStr "hi"); ("applied_guardrails", VStr "")]
           _ (VStr "") 0); reflexivity.
Defined.

(** X14.  An [applied_guardrails] that has no length, a number or a
    boolean, makes the cleaning of metadata raise a [TypeError]. *)
Theorem metadata_guardrails_unsized m v :
  dict_get "applied_guardrails" m = Some v →
  v ≠ VNone →
  py_len v = Raise TypeError →
  Weave._redact_and_clean_metadata (VDict m) = Raise TypeError.
Proof.
  intros Hkv Hv Hn.
  assert (is_none v = false) as Hv' by (by destruct v).
  pose proof (dict_get_clean_entries_kept "applied_guardrails" _ _
                eq_refl Hv' Hkv) as Hc.
  unfold Weave._redact_and_clean_metadata.
  rewrite (truthy_dict_get _ _ _ Hkv). cbn [negb dict_items mbind result_bind].
  fold (clean_entries m).
  by rewrite (dict_get_default_eq _ _ _ _ Hc), Hn.
Qed.

Lemma metadata_guardrails_unsized_witness :
  dict_get "applied_guardrails" [("applied_guardrails", VInt 2)]
    = Some (VInt 2) ∧
  VInt 2 ≠ VNone ∧
  py_len (VInt 2) = Raise TypeError ∧
  Weave._redact_and_clean_metadata (VDict [("applied_guardrails", VInt 2)])
    = Raise TypeError.
Proof.
  split; [reflexivity|]. split; [discriminate|]. split; [reflexivity|].
  apply (metadata_guardrails_unsized [("applied_guardrails", VInt 2)]
           (VInt 2)); [reflexivity | discriminate | reflexivity].
Defined.

Lemma dict_set_keys {V} k (v : V) d :
  is_Some (dict_get k d) → fst <$> dict_set k v d = fst <$> d.
Proof.
  induction d as [|[k' v'] d IH]; [by intros [? ?]|].
  rewrite dict_get_cons. simpl. unfold key_is. simpl.
  destruct (String.eqb_spec k' k) as [->|]; [done|].
  intros H. by rewrite fmap_cons, IH.
Qed.

Lemma dict_get_set_ne {V} k k' (v : V) d :
  k' ≠ k → dict_get k' (dict_set k v d) = dict_get k' d.
Proof.
  intros Hne. induction d as [|[k1 v1] d IH]; simpl.
  - rewrite dict_get_cons. simpl.
    by destruct (String.eqb_spec k k').
  - unfold key_is. simpl. destruct (String.eqb_spec k1 k) as [->|].
    + rewrite !dict_get_cons. simpl.
      by destruct (String.eqb_spec k k').
    + by rewrite !dict_get_cons, IH.
Qed.

(** X15.  The cleaning of the model map changes [model_map_value] only:
    the result has the keys of the input's entries that are not [None], in
    their order, and under every other key the value of the input. *)
Theorem model_map_keys m mmi :
  Weave._clean_model_map_information (VDict m) = Ok mmi →
  fst <$> mmi = fst <$> List.filter (λ kv, negb (is_none (snd kv))) m ∧
  ∀ k, k ≠ "model_map_value" →
    dict_get k mmi = dict_get k (List.filter (λ kv, negb (is_none (snd kv))) m).
Proof.
  fold (dict_comp (λ _ v, negb (is_none v)) m). fold (non_null m).
  intros [[Ht ->] | (m' & [= <-] & [[_ ->] | (sub & Hs & ->)])]
    %clean_model_map_inv.
  - apply negb_false_iff, Nat.eqb_eq in Ht.
    by rewrite (nil_length_inv _ Ht).
  - done.
  - split; [by apply dict_set_keys|]. intros k Hk. by apply dict_get_set_ne.
Qed.

Lemma model_map_keys_witness :
  Weave._clean_model_map_information
    (VDict [("key", VStr "gpt"); ("mode", VNone);
            ("model_map_value", VDict [("supports_vision", VBool true)]);
            ("provider", VStr "openai")])
    = Ok [("key", VStr "gpt"); ("model_map_value", VDict []);
          ("provider", VStr "openai")] ∧
  fst <$> [("key", VStr "gpt"); ("model_map_value", VDict []);
           ("provider", VStr "openai")]
    = ["key"; "model_map_value"; "provider"].
Proof.
  split; [reflexivity|].
  apply (model_map_keys
           [("key", VStr "gpt"); ("mode", VNone);
            ("model_map_value", VDict [("supports_vision", VBool true)]);
            ("provider", VStr "openai")]). reflexivity.
Defined.

(** X16.  A [model_map_value] that is neither [None] nor a dict makes the
    cleaning of the model map raise the [AttributeError] of [items]. *)
Theorem model_map_value_non_dict m v :
  dict_get "model_map_value" m = Some v →
  v ≠ VNone → (∀ d, v ≠ VDict d) →
  Weave._clean_model_map_information (VDict m)
    = Raise (AttributeError "items").
Proof.
  intros Hkv Hv Hd.
  assert (is_none v = false) as Hv' by (by destruct v).
  pose proof (dict_get_non_null_kept _ _ _ Hv' Hkv) as Hc.
  unfold Weave._clean_model_map_information.
  rewrite (truthy_dict_get _ _ _ Hkv). cbn [negb dict_items mbind result_bind].
  fold (non_null m). unfold dict_mem, dict_getitem. rewrite Hc.
  cbn [mbind result_bind]. destruct v; try done. by destruct (Hd d).
Qed.

Lemma model_map_value_non_dict_witness :
  dict_get "model_map_value" [("model_map_value", VStr "gpt-4o")]
    = Some (VStr "gpt-4o") ∧
  VStr "gpt-4o" ≠ VNone ∧ (∀ d, VStr "gpt-4o" ≠ VDict d) ∧
  Weave._clean_model_map_information
    (VDict [("model_map_value", VStr "gpt-4o")])
    = Raise (AttributeError "items").
Proof.
  assert (∀ d, VStr "gpt-4o" ≠ VDict d) as H by (intros d; discriminate).
  split; [reflexivity|]. split; [discriminate|]. split; [exact H|].
  apply (model_map_value_non_dict [("model_map_value", VStr "gpt-4o")]
           (VStr "gpt-4o")); [reflexivity | discriminate | exact H].
Defined.

(** X17.  Both cleaning functions are idempotent: applied to the dict
    that they returned, they return it again. *)
Theorem cleaning_idempotent :
  (∀ v md, Weave._redact_and_clean_metadata v = Ok md →
           Weave._redact_and_clean_metadata (VDict md) = Ok md) ∧
  (∀ v mmi, Weave._clean_model_map_information v = Ok mmi →
            Weave._clean_model_map_information (VDict mmi) = Ok mmi).
Proof. split; [apply redact_again | apply clean_model_map_again]. Qed.

Lemma cleaning_idempotent_witness :
  Weave._redact_and_clean_metadata
    (VDict [("a_api_b", VInt 1); ("note", VStr "hi")])
    = Ok [("note", VStr "hi")] ∧
  Weave._redact_and_clean_metadata (VDict [("note", VStr "hi")])
    = Ok [("note", VStr "hi")] ∧
  Weave._clean_model_map_information
    (VDict [("model_map_value", VDict [("x", VNone)])])
    = Ok [("model_map_value", VDict [])] ∧
  Weave._clean_model_map_information (VDict [("model_map_value", VDict [])])
    = Ok [("model_map_value", VDict [])].
Proof.
  destruct cleaning_idempotent as [H1 H2].
  split; [reflexivity|]. split.
  - apply (H1 (VDict [("a_api_b", VInt 1); ("note", VStr "hi")])).
    reflexivity.
  - split; [reflexivity|].
    apply (H2 (VDict [("model_map_value", VDict [("x", VNone)])])).
    reflexivity.
Defined.

(** ** Further properties: the start payload *)

(** X18.  What [_prepare_data] removes stays away from the wire: the start
    payload of a record that it returns is the serialised dict
    [{start: ...}] whose [inputs] have no key containing "token", no timing
    key and no [hidden_params], and hold under [metadata] a dict with no
    key containing "_api_". *)
Theorem start_payload_redacted json_dumps self kwargs rec start_time_str :
  Weave._prepare_data kwargs = Ok rec →
  ∃ start inputs md,
    Weave._prepare_call_start_payload json_dumps self rec start_time_str
      = json_dumps (VDict [("start", VDict start)]) ∧
    dict_get "inputs" start = Some (VDict inputs) ∧
    (∀ k v, In (k, v) inputs →
       contains "token" k = false ∧ ¬ In k Weave.timing_keys ∧
       k ≠ "hidden_params") ∧
    dict_get "metadata" inputs = Some (VDict md) ∧
    (∀ k v, In (k, v) md → contains "_api_" k = false).
Proof.
  intros (d & md & mmi & _ & Hmd & _ & Hs & _)%prepare_data_inv.
  eexists _, (Weave.standard_logging_data rec), md.
  split; [reflexivity|]. split; [reflexivity|]. rewrite Hs.
  split; [|split; [apply dict_get_written|]].
  - intros k v. rewrite in_app_iff, filter_keys_In, kept_spec.
    intros [(_ & Ht & Hd) | [[= <- _] | [[= <- _] | []]]].
    + split; [done|]. split.
      * intros Hin. apply Hd. simpl in *. intuition.
      * intros ->. apply Hd. simpl. auto 10.
    + split; [done|]. split; [|done]. simpl. intuition congruence.
    + split; [done|]. split; [|done]. simpl. intuition congruence.
  - intros k v Hin. by destruct (redact_In _ _ _ _ Hmd Hin).
Qed.

Lemma start_payload_redacted_witness :
  Weave._prepare_data Weave.failed_call = Ok failed_call_record ∧
  ∃ start inputs md,
    Weave._prepare_call_start_payload (λ _, "{}") some_logger
      failed_call_record "2024-05-01T10:00:00"
      = (λ _, "{}") (VDict [("start", VDict start)]) ∧
    dict_get "inputs" start = Some (VDict inputs) ∧
    (∀ k v, In (k, v) inputs →
       contains "token" k = false ∧ ¬ In k Weave.timing_keys ∧
       k ≠ "hidden_params") ∧
    dict_get "metadata" inputs = Some (VDict md) ∧
    (∀ k v, In (k, v) md → contains "_api_" k = false).
Proof.
  split; [reflexivity|].
  apply (start_payload_redacted (λ _, "{}") some_logger Weave.failed_call
           failed_call_record "2024-05-01T10:00:00").
  reflexivity.
Defined.

(** ** Further properties: the store *)

Lemma wp_pc {A} (m : Store.M A) σ Q : wp m σ Q → pc m σ Q.
Proof. intros (r & σ' & Hm & H) r' σ'' Hm'. congruence. Qed.

Lemma pc_ret {A} (a : A) σ Q : Q (Ok a) σ → pc (mret a) σ Q.
Proof. intros H. by apply wp_pc, wp_ret. Qed.

Lemma pc_raise {A} e σ (Q : result A → _) :
  Q (Raise e) σ → pc (Store.raise e) σ Q.
Proof. intros H. by apply wp_pc, wp_raise. Qed.

Lemma pc_bind {A B} (m : Store.M A) (f : A → Store.M B) σ Q :
  pc m σ (λ r σ', match r with
                  | Ok a => pc (f a) σ' Q
                  | Raise e => Q (Raise e) σ'
                  end) →
  pc (m ≫= f) σ Q.
Proof.
  intros H r σ' Hrun. unfold mbind, Store.M_bind in Hrun.
  destruct (m σ) as [[[a|e] σ1]|] eqn:Hm; [| |done].
  - by apply (H _ _ Hm).
  - injection Hrun as <- <-. by apply (H _ _ Hm).
Qed.

Lemma pc_read_only {A} (m : Store.M A) σ Q :
  read_only m → (∀ r, Q r σ) → pc m σ Q.
Proof. intros Hm H r σ' Hrun. by rewrite (Hm _ _ _ Hrun). Qed.

Lemma pc_alloc o σ Q :
  (∀ σ', extends σ σ' → σ' !! length σ = Some o → Q (Ok (length σ)) σ') →
  pc (Store.alloc o) σ Q.
Proof. intros H. by apply wp_pc, wp_alloc. Qed.

Lemma pc_get l k dflt σ Q :
  (∀ d, σ !! l = Some (Store.ODict d) →
        Q (Ok (dict_get_default k d dflt)) σ) →
  pc (Store.get l k dflt) σ Q.
Proof.
  intros H r σ' Hrun.
  unfold Store.get, Store.load_dict, Store.load, mbind, Store.M_bind in Hrun.
  destruct (σ !! l) as [[rs|d]|] eqn:Hl; try done.
  injection Hrun as <- <-. by apply H.
Qed.

Lemma pc_dict_items r σ Q :
  (∀ l d, r = Store.RObj l → σ !! l = Some (Store.ODict d) → Q (Ok d) σ) →
  Q (Raise (AttributeError "items")) σ →
  pc (Store.dict_items r) σ Q.
Proof.
  intros H HR res σ' Hrun.
  destruct r as [| | | | |l]; try (injection Hrun as <- <-; exact HR).
  unfold Store.dict_items, Store.load, mbind, Store.M_bind in Hrun.
  destruct (σ !! l) as [[rs|d]|] eqn:Hl; try done;
    injection Hrun as <- <-; [done|]. by eapply H.
Qed.

Lemma read_only_truthy r : read_only (Store.truthy r).
Proof.
  intros σ res σ' Hrun.
  destruct r as [| | | | |l]; try by injection Hrun.
  unfold Store.truthy, Store.load, mbind, Store.M_bind in Hrun.
  destruct (σ !! l) as [[rs|d]|]; try done; by injection Hrun.
Qed.

Lemma read_only_py_len r : read_only (Store.py_len r).
Proof.
  intros σ res σ' Hrun.
  destruct r as [| | | | |l]; try by injection Hrun.
  unfold Store.py_len, Store.load, mbind, Store.M_bind in Hrun.
  destruct (σ !! l) as [[rs|d]|]; try done; by injection Hrun.
Qed.

Lemma read_only_dict_items r : read_only (Store.dict_items r).
Proof.
  intros σ res σ' Hrun.
  destruct r as [| | | | |l]; try by injection Hrun.
  unfold Store.dict_items, Store.load, mbind, Store.M_bind in Hrun.
  destruct (σ !! l) as [[rs|d]|]; try done; by injection Hrun.
Qed.

Lemma read_only_as_dict r : read_only (Store.as_dict r).
Proof.
  intros σ res σ' Hrun.
  destruct r as [| | | | |l]; try by injection Hrun.
  unfold Store.as_dict, Store.load, mbind, Store.M_bind in Hrun.
  destruct (σ !! l) as [[rs|d]|]; try done; by injection Hrun.
Qed.

(** The cleaning functions change no object of the store they are given,
    and return a new one. *)
Lemma pc_redact r σ Q :
  (∀ res σ', extends σ σ' →
     (∀ l, res = Ok l → length σ ≤ l) → Q res σ') →
  pc (Store._redact_and_clean_metadata r) σ Q.
Proof.
  intros HQ. unfold Store._redact_and_clean_metadata, Store.new_dict.
  apply pc_bind, pc_read_only; [apply read_only_truthy|].
  intros [b|e]; [|apply HQ; [apply extends_refl | done]].
  destruct b; cbn [negb].
  2:{ apply pc_alloc. intros σ1 H1 _. apply HQ; [done|].
      by intros ? [= <-]. }
  apply pc_bind, pc_read_only; [apply read_only_dict_items|].
  intros [ds|e]; [|apply HQ; [apply extends_refl | done]].
  apply pc_bind, pc_alloc. intros σ1 H1 Hl1.
  apply pc_bind, pc_read_only; [apply read_only_dict_items|].
  intros [ds1|e]; [|by apply HQ].
  apply pc_bind, pc_alloc. intros σ2 H2 Hl2.
  apply pc_bind, pc_alloc. intros σ3 H3 Hl3.
  pose proof (extends_trans _ _ _ H1 (extends_trans _ _ _ H2 H3)) as H13.
  pose proof (extends_length _ _ H1) as Hlen.
  apply pc_bind, wp_pc. eapply wp_get; [apply H3, Hl2|].
  apply pc_bind, pc_read_only; [apply read_only_py_len|].
  intros [n|e]; [|by apply HQ].
  destruct (Nat.eqb n 0).
  - apply pc_bind, pc_bind, wp_pc. eapply wp_pop; [apply H3, Hl2|].
    intros σ4 H4 Hl4. do 2 apply pc_ret. apply HQ.
    + eapply extends_off_fresh; [exact H13 | exact H4 | done].
    + intros ? [= <-]. done.
  - apply pc_bind. do 2 apply pc_ret. apply HQ; [done|].
    intros ? [= <-]. done.
Qed.

Lemma pc_clean_model_map r σ Q :
  (∀ res σ', extends σ σ' →
     (∀ l, res = Ok l → length σ ≤ l) → Q res σ') →
  pc (Store._clean_model_map_information r) σ Q.
Proof.
  intros HQ. unfold Store._clean_model_map_information, Store.new_dict.
  apply pc_bind, pc_read_only; [apply read_only_truthy|].
  intros [b|e]; [|apply HQ; [apply extends_refl | done]].
  destruct b; cbn [negb].
  2:{ apply pc_alloc. intros σ1 H1 _. apply HQ; [done|].
      by intros ? [= <-]. }
  apply pc_bind, pc_read_only; [apply read_only_dict_items|].
  intros [ds|e]; [|apply HQ; [apply extends_refl | done]].
  apply pc_bind, pc_alloc. intros σ1 H1 Hl1.
  apply pc_bind, wp_pc. eapply wp_mem; [exact Hl1|].
  destruct (dict_mem _ _).
  2:{ apply pc_bind. do 2 apply pc_ret. apply HQ; [done|].
      by intros ? [= <-]. }
  apply pc_bind, pc_bind, wp_pc. eapply wp_getitem; [exact Hl1|].
  destruct (dict_get _ _) as [rv|]; [|by apply HQ].
  apply pc_bind, pc_read_only; [apply read_only_dict_items|].
  intros [dsub|e]; [|by apply HQ].
  apply pc_bind, pc_alloc. intros σ2 H2 Hl2.
  apply pc_bind, wp_pc. eapply wp_setitem; [apply H2, Hl1|].
  intros σ3 H3 Hl3.
  assert (extends σ σ3) as H03.
  { eapply extends_off_fresh; [|exact H3|done]. by eapply extends_trans. }
  apply pc_bind, wp_pc. eapply wp_getitem; [exact Hl3|].
  destruct (dict_get _ _) as [rv'|]; [|by apply HQ].
  apply pc_bind, pc_read_only; [apply read_only_dict_items|].
  intros [dsub'|e]; [|by apply HQ].
  apply pc_bind, pc_alloc. intros σ4 H4 Hl4.
  apply wp_pc. eapply wp_setitem; [apply H4, Hl3|].
  intros σ5 H5 Hl5. apply pc_ret. apply HQ.
  - eapply extends_off_fresh; [|exact H5|done]. by eapply extends_trans.
  - by intros ? [= <-].
Qed.

Lemma pc_new_WeaveLogData σ l ds ct es ei rr Q :
  σ !! l = Some (Store.ODict ds) →
  (∀ res σ', extends σ σ' →
     (∀ x, res = Ok x →
        σ' !! Store.standard_logging_data x = Some (Store.ODict ds) ∧
        length σ ≤ Store.standard_logging_data x ∧
        length σ ≤ Store.error_information x ∧
        length σ ≤ Store.response x) →
     Q res σ') →
  pc (Store.new_WeaveLogData (Store.RObj l) ct es ei rr) σ Q.
Proof.
  intros Hl HQ. unfold Store.new_WeaveLogData, Store.new_dict.
  assert (∀ e, Q (Raise e) σ) as HR.
  { intros e. apply HQ; [apply extends_refl | done]. }
  apply pc_bind, wp_pc. eapply wp_as_dict_at; [exact Hl|].
  apply pc_bind, pc_read_only; [apply read_only_as_dict|].
  intros [oei|e]; [|done].
  apply pc_bind, pc_read_only; [apply read_only_as_dict|].
  intros [orr|e]; [|done].
  destruct (Store.as_str ct), (Store.as_str es), oei as [dei|], orr as [dr|];
    try by apply pc_raise.
  destruct (Store.all_str dei); [|by apply pc_raise].
  apply pc_bind, pc_alloc. intros σ1 H1 Hl1.
  apply pc_bind, pc_alloc. intros σ2 H2 Hl2.
  apply pc_bind, pc_alloc. intros σ3 H3 Hl3.
  apply pc_ret.
  pose proof (extends_length _ _ H1). pose proof (extends_length _ _ H2).
  apply HQ.
  - eauto using extends_trans.
  - intros x [= <-]. simpl. split; [apply H3, H2, Hl1|]. lia.
Qed.

(** On any store: no object is changed, and the mapping of the record is
    a new dict that holds the references of the caller's mapping for the
    keys that pass, and new dicts for the two parts that are rewritten. *)
Lemma prepare_data_pc kwargs σ0 :
  pc (Store._prepare_data kwargs) σ0
    (λ res σ',
       extends σ0 σ' ∧
       ∀ x, res = Ok x →
         ∃ kws l ds lmd lmmi,
           σ0 !! kwargs = Some (Store.ODict kws) ∧
           dict_get_default "standard_logging_data" kws Store.RNone
             = Store.RObj l ∧
           σ0 !! l = Some (Store.ODict ds) ∧
           σ' !! Store.standard_logging_data x =
             Some (Store.ODict
                     (filter_keys kept ds ++
                      [("metadata", Store.RObj lmd);
                       ("model_map_information", Store.RObj lmmi)])) ∧
           length σ0 ≤ lmd ∧ length σ0 ≤ lmmi ∧
           length σ0 ≤ Store.standard_logging_data x ∧
           length σ0 ≤ Store.error_information x ∧
           length σ0 ≤ Store.response x).
Proof.
  unfold Store._prepare_data, Store._remove_keys_with_tokens,
    Store._remove_timing_keys, Store.new_dict.
  apply pc_bind, pc_get. intros kws Hlk.
  apply pc_bind, pc_bind, pc_dict_items;
    [|split; [apply extends_refl | done]].
  intros l ds Hr Hl.
  apply pc_alloc. intros σ1 H1 Hl1.
  apply pc_bind, wp_pc. eapply wp_get; [exact Hl1|].
  apply pc_bind, wp_pc. eapply wp_pop; [exact Hl1|]. intros σ2 H2 Hl2.
  apply pc_bind, pc_bind, wp_pc. eapply wp_dict_items_at; [exact Hl2|].
  apply pc_alloc. intros σ3 H3 Hl3.
  assert (extends σ0 σ3) as H03.
  { eapply extends_trans; [|exact H3].
    eapply extends_off_fresh; [exact H1 | exact H2 | done]. }
  pose proof (lookup_lt_Some _ _ _ Hl2) as Hlt2.
  apply pc_bind, wp_pc. eapply wp_pop; [exact Hl3|]. intros σ4 H4 Hl4.
  assert (extends σ0 σ4) as H04.
  { eapply extends_off_fresh; [exact H03 | exact H4 | lia]. }
  pose proof (lookup_lt_Some _ _ _ Hl4) as Hlt4.
  apply pc_bind, pc_redact. intros res σ5 H5 Hmd.
  pose proof (extends_trans _ _ _ H04 H5) as H05.
  destruct res as [lmd|e]; [|split; [done | done]].
  specialize (Hmd lmd eq_refl).
  apply pc_bind, wp_pc. eapply wp_setitem; [apply H5, Hl4|]. intros σ6 H6 Hl6.
  apply pc_bind, wp_pc. eapply wp_pop; [exact Hl6|]. intros σ7 H7 Hl7.
  apply pc_bind, wp_pc. eapply wp_pop; [exact Hl7|]. intros σ8 H8 Hl8.
  assert (extends σ0 σ8) as H08.
  { eapply extends_off_fresh; [|exact H8|lia].
    eapply extends_off_fresh; [|exact H7|lia].
    eapply extends_off_fresh; [exact H05|exact H6|lia]. }
  pose proof (lookup_lt_Some _ _ _ Hl8) as Hlt8.
  apply pc_bind, pc_clean_model_map. intros res σ9 H9 Hmmi.
  pose proof (extends_trans _ _ _ H08 H9) as H09.
  destruct res as [lmmi|e]; [|split; [done | done]].
  specialize (Hmmi lmmi eq_refl).
  apply pc_bind, wp_pc. eapply wp_setitem; [apply H9, Hl8|].
  intros σ10 H10 Hl10.
  apply pc_bind, wp_pc. eapply wp_pop; [exact Hl10|]. intros σ11 H11 Hl11.
  apply pc_bind, wp_pc. eapply wp_pop; [exact Hl11|]. intros σ12 H12 Hl12.
  apply pc_bind, wp_pc. eapply wp_pop; [exact Hl12|]. intros σ13 H13 Hl13.
  apply pc_bind, wp_pc. eapply wp_pop; [exact Hl13|]. intros σ14 H14 Hl14.
  apply pc_bind, wp_pc. eapply wp_get; [exact Hl14|].
  assert (extends σ0 σ14) as H014.
  { eapply extends_off_fresh; [|exact H14|lia].
    eapply extends_off_fresh; [|exact H13|lia].
    eapply extends_off_fresh; [|exact H12|lia].
    eapply extends_off_fresh; [|exact H11|lia].
    eapply extends_off_fresh; [exact H09|exact H10|lia]. }
  norm_keys_in Hl14.
  eapply pc_new_WeaveLogData; [exact Hl14|].
  intros res σ15 H15 Hx.
  pose proof (extends_length _ _ H014) as Hlen.
  pose proof (extends_length _ _ H04). pose proof (extends_length _ _ H08).
  split; [by eapply extends_trans|].
  intros x ->. destruct (Hx x eq_refl) as (Hsld & ? & ? & ?).
  exists kws, l, ds, lmd, lmmi. subst. repeat split; try done; try lia.
  rewrite Hsld. do 3 f_equal. apply filter_keys_ext. intros k.
  unfold kept, dropped_keys, Weave.timing_keys. cbn [existsb]. btauto.
Qed.

(** X19.  On every store, a cyclic one too, [_prepare_data] leaves each
    object that it finds as it is: the store at the end of the run is the
    store at its start followed by new objects, whether the run returns or
    raises. *)
Theorem prepare_data_frame kwargs σ res σ' :
  Store._prepare_data kwargs σ = Some (res, σ') → σ `prefix_of` σ'.
Proof.
  intros Hrun. apply extends_prefix.
  by destruct (prepare_data_pc kwargs σ _ _ Hrun).
Qed.

Lemma prepare_data_frame_witness :
  ∃ x σ',
    Store._prepare_data 2 cyclic_store = Some (Ok x, σ') ∧
    cyclic_store `prefix_of` σ'.
Proof.
  eexists _, _. split; [reflexivity|].
  eapply (prepare_data_frame 2 cyclic_store). reflexivity.
Defined.

(** X20.  [_prepare_data] copies one level only.  The mapping of the
    record that it returns is a new dict; under the keys that pass it holds
    the very references of the caller's [standard_logging_data], so that
    nested objects are shared with the caller; under [metadata] and
    [model_map_information] it holds new dicts; the dicts of the record's
    [error_information] and [response] are new as well. *)
Theorem prepare_data_shares kwargs σ x σ' :
  Store._prepare_data kwargs σ = Some (Ok x, σ') →
  ∃ kws l ds lmd lmmi,
    σ !! kwargs = Some (Store.ODict kws) ∧
    dict_get_default "standard_logging_data" kws Store.RNone
      = Store.RObj l ∧
    σ !! l = Some (Store.ODict ds) ∧
    σ' !! Store.standard_logging_data x =
      Some (Store.ODict
              (List.filter (λ kv, kept (fst kv)) ds ++
               [("metadata", Store.RObj lmd);
                ("model_map_information", Store.RObj lmmi)])) ∧
    length σ ≤ lmd ∧ length σ ≤ lmmi ∧
    length σ ≤ Store.standard_logging_data x ∧
    length σ ≤ Store.error_information x ∧
    length σ ≤ Store.response x.
Proof.
  intros Hrun. destruct (prepare_data_pc kwargs σ _ _ Hrun) as [_ H].
  by apply H.
Qed.

Lemma prepare_data_shares_witness :
  ∃ x σ',
    Store._prepare_data 5 Store.scenario = Some (Ok x, σ') ∧
    ∃ kws l ds lmd lmmi,
      Store.scenario !! 5 = Some (Store.ODict kws) ∧
      dict_get_default "standard_logging_data" kws Store.RNone
        = Store.RObj l ∧
      Store.scenario !! l = Some (Store.ODict ds) ∧
      σ' !! Store.standard_logging_data x =
        Some (Store.ODict
                (List.filter (λ kv, kept (fst kv)) ds ++
                 [("metadata", Store.RObj lmd);
                  ("model_map_information", Store.RObj lmmi)])) ∧
      length Store.scenario ≤ lmd ∧ length Store.scenario ≤ lmmi ∧
      length Store.scenario ≤ Store.standard_logging_data x ∧
      length Store.scenario ≤ Store.error_information x ∧
      length Store.scenario ≤ Store.response x.
Proof.
  eexists _, _. split; [reflexivity|].
  eapply (prepare_data_shares 5 Store.scenario). reflexivity.
Defined.
